(** * pasetoD, protocol v1: the public (signing) and local providers

    A shallow embedding of [src/protocol/v1.ts].  The two classes of that
    file, [V1Local] and [V1Public], are translated statement by statement
    into a small state-and-error monad over the provider object.  The
    helpers the file imports from [../util/*.ts] and [../error/mod.ts]
    ([PAE], [packer], [_parse_raw_token], [checkKeyPurpose] and the four
    validators) are modelled from the specification; the host's
    cryptographic engine ([crypto.subtle]) and JSON codec are an interface
    ([Host]) with one small executable instance ([Toy]) used to run the
    definitions on concrete inputs. *)

From Stdlib Require Import String Ascii NArith ZArith Lia Bool Arith List.
From Stdlib.Strings Require Import Byte.
Import ListNotations.

Set Implicit Arguments.

Local Open Scope list_scope.

(** ** Byte buffers

    A [Uint8Array] is a list of bytes.  A JavaScript string is modelled by
    the sequence of bytes of its UTF-8 encoding, so that [TextEncoder.encode]
    and the decoding of a byte view back into text are the two directions of
    the Standard Library's conversion between [string] and [list byte]. *)

Definition bytes := list byte.

Definition encode (s : string) : bytes := list_byte_of_string s.
Definition decode_text (b : bytes) : string := string_of_list_byte b.

(** The low eight bits of a number, as a byte. *)
Definition byte_of_N (n : N) : byte :=
  match Byte.of_N (n mod 256) with
  | Some b => b
  | None => x00
  end.

(** ** PAE: pre-authentication encoding *)

(** [k] bytes of [n], least significant first. *)
Fixpoint le_bytes (k : nat) (n : N) : bytes :=
  match k with
  | O => []
  | S k' => byte_of_N n :: le_bytes k' (n / 256)
  end.

(** Modelled from the spec: [LE64], the 8-byte little-endian unsigned
    integer that PAE writes for the count of parts and for each length
    (the helper lives in [../util/pae.ts]). *)
Definition LE64 (n : nat) : bytes := le_bytes 8 (N.of_nat n).

(** Modelled from the spec: [PAE] of [../util/pae.ts]: the count of parts as
    an 8-byte little-endian integer, then for each part its length as an
    8-byte little-endian integer followed by its raw bytes, in order. *)
Definition PAE_part (p : bytes) : bytes := LE64 (length p) ++ p.

Definition PAE (parts : list bytes) : bytes :=
  LE64 (length parts) ++ concat (map PAE_part parts).

(** The value read back from little-endian bytes. *)
Fixpoint le_value (b : bytes) : N :=
  match b with
  | [] => 0
  | x :: r => Byte.to_N x + 256 * le_value r
  end.

(** What an 8-byte length field can hold. *)
Definition fits64 (n : nat) : Prop := (N.of_nat n < 2 ^ 64)%N.

Definition parts_fit (parts : list bytes) : Prop :=
  fits64 (length parts) /\ Forall (fun p => fits64 (length p)) parts.

(** ** base64url without padding *)

Definition alphabet : list ascii :=
  list_ascii_of_string
    "ABCDEFGHIJKLMNOPQRSTUVWXYZabcdefghijklmnopqrstuvwxyz0123456789-_".

Definition char_of_sextet (n : N) : ascii :=
  nth (N.to_nat n) alphabet "A"%char.

Fixpoint index_of (c : ascii) (l : list ascii) : option N :=
  match l with
  | [] => None
  | x :: r => if Ascii.eqb c x then Some 0%N
              else option_map N.succ (index_of c r)
  end.

Definition sextet_of_char (c : ascii) : option N := index_of c alphabet.

(** Three bytes make four sextets; one or two trailing bytes make two or
    three, the unused low bits being zero. *)
Fixpoint sextets_of_bytes (b : bytes) : list N :=
  match b with
  | [] => []
  | [x] =>
      let a := Byte.to_N x in
      [a / 4; (a mod 4) * 16]%N
  | [x; y] =>
      let a := Byte.to_N x in
      let b := Byte.to_N y in
      [a / 4; (a mod 4) * 16 + b / 16; (b mod 16) * 4]%N
  | x :: y :: z :: r =>
      let a := Byte.to_N x in
      let b := Byte.to_N y in
      let c := Byte.to_N z in
      (a / 4 :: (a mod 4) * 16 + b / 16 :: (b mod 16) * 4 + c / 64
         :: c mod 64 :: sextets_of_bytes r)%N
  end.

(** Four sextets make three bytes.  The bits of a trailing group that do
    not fill a byte are dropped: the low bits of a group of two or three,
    and a lone trailing sextet altogether (a token whose last character
    has been removed still decodes, and fails at the signature check). *)
Fixpoint bytes_of_sextets (s : list N) : option bytes :=
  match s with
  | [] => Some []
  | [_] => Some []
  | [s1; s2] => Some [byte_of_N (s1 * 4 + s2 / 16)]
  | [s1; s2; s3] =>
      Some [byte_of_N (s1 * 4 + s2 / 16);
            byte_of_N ((s2 mod 16) * 16 + s3 / 4)]
  | s1 :: s2 :: s3 :: s4 :: r =>
      option_map
        (fun t => byte_of_N (s1 * 4 + s2 / 16)
                  :: byte_of_N ((s2 mod 16) * 16 + s3 / 4)
                  :: byte_of_N ((s3 mod 4) * 64 + s4) :: t)
        (bytes_of_sextets r)
  end.

Fixpoint sextets_of_chars (l : list ascii) : option (list N) :=
  match l with
  | [] => Some []
  | c :: r =>
      match sextet_of_char c, sextets_of_chars r with
      | Some n, Some t => Some (n :: t)
      | _, _ => None
      end
  end.

(** Modelled from the spec: [base64url_nopad], the encoder the packer of
    [../util/packer.ts] applies to the body and to the footer. *)
Definition base64url_encode (b : bytes) : string :=
  string_of_list_ascii (map char_of_sextet (sextets_of_bytes b)).

(** Modelled from the spec: the base64url decoder of
    [../util/raw_parser.ts], "failing on invalid encoding": a character
    outside the alphabet. *)
Definition base64url_decode (s : string) : option bytes :=
  match sextets_of_chars (list_ascii_of_string s) with
  | Some l => bytes_of_sextets l
  | None => None
  end.

(** ** Splitting a token on dots *)

Definition is_dot (c : ascii) : bool := Ascii.eqb c "."%char.

(** [String.prototype.split(".")]: always at least one segment. *)
Fixpoint split_dot (s : string) : list string :=
  match s with
  | EmptyString => [EmptyString]
  | String c r =>
      if is_dot c then EmptyString :: split_dot r
      else match split_dot r with
           | h :: t => String c h :: t
           | [] => [String c EmptyString]
           end
  end.

Fixpoint dot_free (s : string) : bool :=
  match s with
  | EmptyString => true
  | String c r => negb (is_dot c) && dot_free r
  end.


(** ** Errors, events and the provider monad *)

(** The classes of [../error/mod.ts].  [v1.ts] itself throws
    [ProviderError] (the specification's ProviderStateError) and
    [VerificationError], each with a fixed message; the others are raised
    by the helpers.  [OperationError] is a rejection by the host's engine. *)
Inductive Error : Type :=
| ProviderError (message : string)
| VerificationError (message : string)
| KeyPurposeError
| InvalidMessageError
| MalformedTokenError
| HeaderMismatchError
| ClaimsError
| OperationError.

(** What a method does outside the provider object: calls into
    [crypto.subtle] and lines written with [console.log]. *)
Inductive Event : Type :=
| SubtleGenerateKey
| SubtleSign (data : bytes)
| SubtleVerify (signature data : bytes)
| ConsoleLog (line : string).

Definition Result (A : Type) : Type := (Error + A)%type.

(** A method of an object of class [S]: from the object's fields before
    the call to the value returned or error thrown, the fields after the
    call, and the events of the call in order. *)
Definition Eff (S A : Type) : Type := S -> Result A * S * list Event.

Definition ret {S A : Type} (a : A) : Eff S A :=
  fun s => (inr a, s, []).

Definition throw {S A : Type} (e : Error) : Eff S A :=
  fun s => (inl e, s, []).

Definition bind {S A B : Type} (m : Eff S A) (k : A -> Eff S B) : Eff S B :=
  fun s =>
    match m s with
    | (inl e, s1, ev1) => (inl e, s1, ev1)
    | (inr a, s1, ev1) =>
        match k a s1 with
        | (r, s2, ev2) => (r, s2, ev1 ++ ev2)
        end
    end.

(** Reading [this]. *)
Definition get {S : Type} : Eff S S :=
  fun s => (inr s, s, []).

(** Assigning to fields of [this]. *)
Definition modify {S : Type} (f : S -> S) : Eff S unit :=
  fun s => (inr tt, f s, []).

Definition emit {S : Type} (e : Event) : Eff S unit :=
  fun s => (inr tt, s, [e]).

(** A helper that returns or throws and touches nothing. *)
Definition lift {S A : Type} (r : Result A) : Eff S A :=
  fun s => (r, s, []).

Declare Scope eff_scope.
Delimit Scope eff_scope with eff.
Notation "x <- m ;; k" := (bind m (fun x => k))
  (at level 61, m at next level, right associativity) : eff_scope.
Notation "m ;; k" := (bind m (fun _ => k))
  (at level 61, right associativity) : eff_scope.

Definition outcome {S A : Type} (x : Result A * S * list Event) : Result A :=
  fst (fst x).
Definition final {S A : Type} (x : Result A * S * list Event) : S :=
  snd (fst x).
Definition events {S A : Type} (x : Result A * S * list Event) : list Event :=
  snd x.

(** ** Keys *)

Inductive KeyType : Type := KPublic | KPrivate | KSecret.

Inductive KeyUsage : Type := UEncrypt | UDecrypt | USign | UVerify.

Definition KeyUsage_eqb (a b : KeyUsage) : bool :=
  match a, b with
  | UEncrypt, UEncrypt | UDecrypt, UDecrypt
  | USign, USign | UVerify, UVerify => true
  | _, _ => false
  end.

(** [RsaHashedKeyGenParams] and [AesKeyGenParams], as far as the protocol
    table uses them: the name, the modulus or key length in bits, and the
    digest. *)
Record KeyAlgorithm : Type := {
  alg_name : string;
  alg_length : N;
  alg_hash : string
}.

(** [RsaPssParams]. *)
Record PssParams : Type := {
  pss_name : string;
  saltLength : N
}.

(** Modelled from the spec: the entries [PROTOCOLS.v1.public.algorithm] and
    [PROTOCOLS.v1.public.pss] of the table in [./common.ts]: RSA-PSS with a
    2048-bit modulus, SHA-384 as digest and mask function, a 48-byte salt. *)
Definition PROTOCOLS_v1_public_algorithm : KeyAlgorithm :=
  {| alg_name := "RSA-PSS"; alg_length := 2048; alg_hash := "SHA-384" |}.

Definition PROTOCOLS_v1_public_pss : PssParams :=
  {| pss_name := "RSA-PSS"; saltLength := 48 |}.

(** The parameters [V1Local.generateKey] writes out in place. *)
Definition AES_CTR_256 : KeyAlgorithm :=
  {| alg_name := "AES-CTR"; alg_length := 256; alg_hash := EmptyString |}.

(** ** The host: cryptographic engine and JSON codec

    [crypto.subtle] and the JSON codec belong to the runtime.  [Entropy] is
    what the engine draws for one call: key generation and RSA-PSS signing
    are randomised. *)
Class Host : Type := {
  KeyMaterial : Type;
  Entropy : Type;
  (** a JavaScript value passed as message and returned as claims *)
  Message : Type;
  (** [JSON.stringify] on a plain serializable object; [None] otherwise *)
  stringify : Message -> option string;
  (** [JSON.parse] of a payload; [None] on a structural failure *)
  parse_claims : bytes -> option Message;
  subtle_generateKeyPair :
    Entropy -> KeyAlgorithm -> bool -> list KeyUsage ->
    option (KeyMaterial * KeyMaterial);
  subtle_generateSecret :
    Entropy -> KeyAlgorithm -> bool -> list KeyUsage -> option KeyMaterial;
  subtle_sign :
    Entropy -> PssParams -> KeyMaterial -> bytes -> option bytes;
  subtle_verify :
    PssParams -> KeyMaterial -> bytes -> bytes -> option bool
}.

Section Model.

Context {host : Host}.

(** A [CryptoKey]: an opaque handle with its type, algorithm and usages. *)
Record CryptoKey : Type := {
  key_type : KeyType;
  key_algorithm : KeyAlgorithm;
  key_usages : list KeyUsage;
  key_material : KeyMaterial
}.

(** [V1PublicKeyPair]. *)
Record CryptoKeyPair : Type := {
  publicKey : CryptoKey;
  privateKey : CryptoKey
}.

(** The type of key an operation needs. *)
Definition KeyType_for (op : KeyUsage) (t : KeyType) : bool :=
  match op, t with
  | USign, KPrivate => true
  | UVerify, KPublic => true
  | UEncrypt, KSecret => true
  | UDecrypt, KSecret => true
  | _, _ => false
  end.

(** The algorithms of the Web Cryptography API that sign and verify, and
    those that encrypt and decrypt. *)
Definition signature_algorithms : list string :=
  ["RSASSA-PKCS1-v1_5"; "RSA-PSS"; "ECDSA"; "HMAC"; "Ed25519"]%string.

Definition encryption_algorithms : list string :=
  ["RSA-OAEP"; "AES-CTR"; "AES-CBC"; "AES-GCM"]%string.

(** The algorithm of a key is one for the operation. *)
Definition algorithm_for (op : KeyUsage) (name : string) : bool :=
  existsb (String.eqb name)
          match op with
          | USign | UVerify => signature_algorithms
          | UEncrypt | UDecrypt => encryption_algorithms
          end.

Definition key_allows (op : KeyUsage) (k : CryptoKey) : bool :=
  KeyType_for op (key_type k)
  && existsb (KeyUsage_eqb op) (key_usages k)
  && algorithm_for op (alg_name (key_algorithm k)).

(** Modelled from the spec: [checkKeyPurpose] of [../util/key.ts]: fails
    with KeyPurposeError when the key is absent or its type, usages or
    algorithm do not match the operation ([sign] needs a private signing
    key, [verify] a public verification key). *)
Definition checkKeyPurpose (op : KeyUsage) (key : option CryptoKey)
  : Result unit :=
  match key with
  | None => inl KeyPurposeError
  | Some k => if key_allows op k then inr tt else inl KeyPurposeError
  end.

(** The engine's calls, as methods: each leaves its event.  Key generation
    is in two parts, the request and the engine's answer, because
    [generateKey] awaits between them. *)
Definition answer_generateKeyPair {S : Type} (r : Entropy)
    (alg : KeyAlgorithm) (extractable : bool) (usages : list KeyUsage)
  : Eff S CryptoKeyPair :=
  match subtle_generateKeyPair r alg extractable usages with
  | Some (pub, priv) =>
      ret {| publicKey :=
               {| key_type := KPublic; key_algorithm := alg;
                  key_usages := filter (KeyUsage_eqb UVerify) usages;
                  key_material := pub |};
             privateKey :=
               {| key_type := KPrivate; key_algorithm := alg;
                  key_usages := filter (KeyUsage_eqb USign) usages;
                  key_material := priv |} |}
  | None => throw OperationError
  end.

Definition call_generateSecret {S : Type} (r : Entropy) (alg : KeyAlgorithm)
    (extractable : bool) (usages : list KeyUsage) : Eff S CryptoKey :=
  (emit SubtleGenerateKey ;;
   match subtle_generateSecret r alg extractable usages with
   | Some k =>
       ret {| key_type := KSecret; key_algorithm := alg;
              key_usages := usages; key_material := k |}
   | None => throw OperationError
   end)%eff.

Definition call_sign {S : Type} (r : Entropy) (params : PssParams)
    (key : option CryptoKey) (data : bytes) : Eff S bytes :=
  (emit (SubtleSign data) ;;
   match key with
   | Some k =>
       match subtle_sign r params (key_material k) data with
       | Some s => ret s
       | None => throw OperationError
       end
   | None => throw OperationError
   end)%eff.

Definition call_verify {S : Type} (params : PssParams)
    (key : option CryptoKey) (signature data : bytes) : Eff S bool :=
  (emit (SubtleVerify signature data) ;;
   match key with
   | Some k =>
       match subtle_verify params (key_material k) signature data with
       | Some b => ret b
       | None => throw OperationError
       end
   | None => throw OperationError
   end)%eff.

(** ** Token framer *)

Definition is_empty (s : string) : bool :=
  match s with
  | EmptyString => true
  | String _ _ => false
  end.

(** Modelled from the spec: [packer] of [../util/packer.ts]: the header, a
    dot, the base64url of payload followed by signature, and a dot and the
    base64url of the footer only when the footer is not empty. *)
Definition packer (header : string) (payload signature : bytes)
    (footer : string) : string :=
  (header ++ "." ++ base64url_encode (payload ++ signature)%list
   ++ (if is_empty footer then EmptyString
       else "." ++ base64url_encode (encode footer)))%string.

Record ParseOptions : Type := {
  opt_version : string;
  opt_purpose : string;
  opt_signatureLength : nat
}.

Record RawViews : Type := {
  raw_payload : bytes;
  signatureBytes : bytes
}.

Record ParsedToken : Type := {
  tok_version : string;
  tok_purpose : string;
  tok_payload : bytes;
  tok_footer : string;
  tok_raw : RawViews
}.

Definition decode_segment (seg : string) : Result bytes :=
  match base64url_decode seg with
  | Some b => inr b
  | None => inl MalformedTokenError
  end.

(** The body and footer of a token whose dots have been counted and whose
    header has been compared. *)
Definition parse_segments (opts : ParseOptions) (v p body : string)
    (footer : option string) : Result ParsedToken :=
  match decode_segment body with
  | inl e => inl e
  | inr b =>
      if length b <? opt_signatureLength opts then inl MalformedTokenError
      else
        let n := length b - opt_signatureLength opts in
        let payload := firstn n b in
        let signature := skipn n b in
        match
          match footer with
          | Some seg =>
              match decode_segment seg with
              | inl e => inl e
              | inr fb => inr (decode_text fb)
              end
          | None => inr EmptyString
          end
        with
        | inl e => inl e
        | inr f =>
            inr {| tok_version := v; tok_purpose := p;
                   tok_payload := payload; tok_footer := f;
                   tok_raw := {| raw_payload := payload;
                                 signatureBytes := signature |} |}
        end
  end.

Definition header_matches (opts : ParseOptions) (v p : string) : bool :=
  String.eqb v (opt_version opts) && String.eqb p (opt_purpose opts).

(** Modelled from the spec: [_parse_raw_token] of [../util/raw_parser.ts],
    in the order the specification gives: the segment count (3 without a
    footer, 4 with one), the first two segments against [version] and
    [purpose], the base64url body, its length against [signatureLength],
    the split into payload and signature, and the footer. *)
Definition _parse_raw_token (rawToken : string) (opts : ParseOptions)
  : Result ParsedToken :=
  match split_dot rawToken with
  | [v; p; body] =>
      if header_matches opts v p then parse_segments opts v p body None
      else inl HeaderMismatchError
  | [v; p; body; footer] =>
      if header_matches opts v p
      then parse_segments opts v p body (Some footer)
      else inl HeaderMismatchError
  | _ => inl MalformedTokenError
  end.

(** ** Validators *)

(** Modelled from the spec: [validateMessage] of [../util/validation.ts]:
    rejects what is not a plain serializable object with
    InvalidMessageError, returns the serialization otherwise. *)
Definition validateMessage (message : Message) : Result string :=
  match stringify message with
  | Some s => inr s
  | None => inl InvalidMessageError
  end.

(** Modelled from the spec: [validateFooter]: passes a string footer
    through. *)
Definition validateFooter (footer : string) : Result string := inr footer.

(** Modelled from the spec: [validateHeader]: fails with
    HeaderMismatchError if either component differs, returns the header
    otherwise. *)
Definition validateHeader (expectedVersion expectedPurpose
                           actualVersion actualPurpose : string)
  : Result string :=
  if String.eqb expectedVersion actualVersion
     && String.eqb expectedPurpose actualPurpose
  then inr (expectedVersion ++ "." ++ expectedPurpose)%string
  else inl HeaderMismatchError.

(** Modelled from the spec: [validateClaims]: parses the payload into a
    claims mapping, ClaimsError on a structural failure. *)
Definition validateClaims (payload : bytes) : Result Message :=
  match parse_claims payload with
  | Some m => inr m
  | None => inl ClaimsError
  end.

(** [VerifiedPasetoToken] of [./common.ts]. *)
Record VerifiedPasetoToken : Type := {
  message : Message;
  footer : string
}.

(** The footer or, when it is falsy, the empty string. *)
Definition or_empty (s : string) : string :=
  if is_empty s then EmptyString else s.

End Model.

(** ** The providers of [v1.ts] *)

(** [class V1Local extends BaseProtocol implements LocalPurpose] *)
Module V1Local.
Section WithHost.
Context {host : Host}.

Record t : Type := {
  version : string;
  purpose : string;
  secretKey : option CryptoKey
}.

(** [constructor(secretKey = undefined)] *)
Definition new (secretKey : option CryptoKey) : t :=
  {| version := "v1"; purpose := "local"; secretKey := secretKey |}.

Definition set_secretKey (k : CryptoKey) (this : t) : t :=
  {| version := version this; purpose := purpose this;
     secretKey := Some k |}.

Definition generateKey (r : Entropy) : Eff t unit :=
  (this <- get ;;
   match secretKey this with
   | Some _ => throw (ProviderError "This provider already has a secret key.")
   | None =>
       k <- call_generateSecret r AES_CTR_256 true [UEncrypt; UDecrypt] ;;
       modify (set_secretKey k)
   end)%eff.

(** [encrypt(): void]; the arguments a caller passes are ignored. *)
Definition encrypt {A : Type} (args : list A) : Eff t unit :=
  emit (ConsoleLog "develop an app").

(** [decrypt(): void] *)
Definition decrypt {A : Type} (args : list A) : Eff t unit :=
  emit (ConsoleLog "develop an app").

End WithHost.
End V1Local.

(** [class V1Public extends BaseProtocol implements PublicPurpose] *)
Module V1Public.
Section WithHost.
Context {host : Host}.

Record t : Type := {
  version : string;
  purpose : string;
  keyPair : option CryptoKeyPair;
  signatureLength : nat
}.

(** [constructor(keyPair = undefined)] *)
Definition new (keyPair : option CryptoKeyPair) : t :=
  {| version := "v1"; purpose := "public"; keyPair := keyPair;
     signatureLength := 256 |}.

Definition set_keyPair (kp : CryptoKeyPair) (this : t) : t :=
  {| version := version this; purpose := purpose this;
     keyPair := Some kp; signatureLength := signatureLength this |}.

(** [generateKey] up to its [await]: the test of the key slot and the
    request to the engine. *)
Definition generateKey_enter : Eff t unit :=
  (this <- get ;;
   match keyPair this with
   | Some _ => throw (ProviderError "This provider already has a key pair.")
   | None => emit SubtleGenerateKey
   end)%eff.

(** [generateKey] after its [await]: the engine's answer is assigned to
    [this.keyPair]. *)
Definition generateKey_resume (r : Entropy) : Eff t unit :=
  (kp <- answer_generateKeyPair r PROTOCOLS_v1_public_algorithm true
                                [USign; UVerify] ;;
   modify (set_keyPair kp))%eff.

(** [async generateKey(): Promise<void>], run without interruption. *)
Definition generateKey (r : Entropy) : Eff t unit :=
  (generateKey_enter ;; generateKey_resume r)%eff.

(** [async sign(message, footer): Promise<string>]; the footer defaults to
    the empty string. *)
Definition sign (r : Entropy) (message : Message) (footer : string)
  : Eff t string :=
  (this <- get ;;
   lift (checkKeyPurpose USign (option_map privateKey (keyPair this))) ;;
   let h := (version this ++ "." ++ purpose this)%string in
   m <- lift (validateMessage message) ;;
   let u8msg := encode m in
   f <- lift (validateFooter footer) ;;
   let m2 := PAE [encode h; u8msg; encode f] in
   signature <- call_sign r PROTOCOLS_v1_public_pss
                          (option_map privateKey (keyPair this)) m2 ;;
   ret (packer h u8msg signature f))%eff.

(** [async verify(rawToken): Promise<VerifiedPasetoToken>] *)
Definition verify (rawToken : string) : Eff t VerifiedPasetoToken :=
  (this <- get ;;
   lift (checkKeyPurpose UVerify (option_map publicKey (keyPair this))) ;;
   parsed <- lift (_parse_raw_token rawToken
                     {| opt_version := version this;
                        opt_purpose := purpose this;
                        opt_signatureLength := signatureLength this |}) ;;
   h <- lift (validateHeader (version this) (purpose this)
                             (tok_version parsed) (tok_purpose parsed)) ;;
   let f := or_empty (tok_footer parsed) in
   let s := signatureBytes (tok_raw parsed) in
   let m := raw_payload (tok_raw parsed) in
   let m2 := PAE [encode h; m; encode f] in
   isVerified <- call_verify PROTOCOLS_v1_public_pss
                             (option_map publicKey (keyPair this)) s m2 ;;
   if (isVerified : bool) then
     claims <- lift (validateClaims (tok_payload parsed)) ;;
     ret {| message := claims; footer := tok_footer parsed |}
   else
     throw (VerificationError "The token failed verification."))%eff.

End WithHost.
End V1Public.

(** ** Overlapping calls of [generateKey]

    An [async] method runs until its [await], where other code may run, and
    is resumed later.  A call of [V1Public.generateKey] is therefore two
    turns of the event loop: [generateKey_enter] when it is made,
    [generateKey_resume] when the engine has answered. *)
Module Overlap.
Section WithHost.
Context {host : Host}.

Inductive Call : Type :=
| NotStarted (r : Entropy)
| Awaiting (r : Entropy)
| Settled (res : Result unit).

Record World : Type := {
  provider : V1Public.t;
  calls : list Call;
  log : list Event
}.

Fixpoint update {A : Type} (i : nat) (x : A) (l : list A) : list A :=
  match l, i with
  | [], _ => []
  | _ :: t, O => x :: t
  | y :: t, S j => y :: update j x t
  end.

(** One turn of the event loop, given to call [i]. *)
Definition turn (i : nat) (w : World) : World :=
  match nth_error (calls w) i with
  | Some (NotStarted r) =>
      match V1Public.generateKey_enter (provider w) with
      | (inr _, p, ev) =>
          {| provider := p; calls := update i (Awaiting r) (calls w);
             log := log w ++ ev |}
      | (inl e, p, ev) =>
          {| provider := p; calls := update i (Settled (inl e)) (calls w);
             log := log w ++ ev |}
      end
  | Some (Awaiting r) =>
      match V1Public.generateKey_resume r (provider w) with
      | (res, p, ev) =>
          {| provider := p; calls := update i (Settled res) (calls w);
             log := log w ++ ev |}
      end
  | _ => w
  end.

Definition run (schedule : list nat) (w : World) : World :=
  fold_left (fun w i => turn i w) schedule w.

Definition succeeded (c : Call) : bool :=
  match c with
  | Settled (inr _) => true
  | _ => false
  end.

End WithHost.
End Overlap.

(** ** Flipping one bit *)




(** A text without its last character. *)
Fixpoint without_last (s : string) : string :=
  match s with
  | EmptyString => EmptyString
  | String c EmptyString => EmptyString
  | String c r => String c (without_last r)
  end.

(** ** Notions the statements use *)

(** A method that leaves the fields of its object as they were. *)
Definition readonly {S A : Type} (m : Eff S A) : Prop :=
  forall s, final (m s) = s.

Section Notions.

Context {host : Host}.

(** The options [verify] hands to the parser. *)
Definition options (p : V1Public.t) : ParseOptions :=
  {| opt_version := V1Public.version p;
     opt_purpose := V1Public.purpose p;
     opt_signatureLength := V1Public.signatureLength p |}.

(** [`${this.version}.${this.purpose}`] *)
Definition header (p : V1Public.t) : string :=
  (V1Public.version p ++ "." ++ V1Public.purpose p)%string.

(** [this?.keyPair?.publicKey] and [this?.keyPair?.privateKey] *)
Definition verification_key (p : V1Public.t) : option CryptoKey :=
  option_map publicKey (V1Public.keyPair p).

Definition signing_key (p : V1Public.t) : option CryptoKey :=
  option_map privateKey (V1Public.keyPair p).

(** The provider holds a key that the guard lets through for [op]. *)
Definition has_key (op : KeyUsage) (key : option CryptoKey) : bool :=
  match key with
  | Some k => key_allows op k
  | None => false
  end.

(** The one error [verify] throws itself. *)
Definition failed_verification : Error :=
  VerificationError "The token failed verification.".

(** The data the engine is asked about for a parsed token. *)
Definition signed_data (p : V1Public.t) (parsed : ParsedToken) : bytes :=
  PAE [encode (header p); raw_payload (tok_raw parsed);
       encode (or_empty (tok_footer parsed))].

(** A message the host's codec writes and reads back: a plain
    serializable object. *)
Definition serializable (m : Message) : Prop :=
  exists s, stringify m = Some s /\ parse_claims (encode s) = Some m.

(** A key pair of protocol v1, public purpose, on a correct engine: the
    halves pass the guard, signing answers with 256 bytes (a 2048-bit
    modulus), and the public half accepts what the private half signed. *)
Definition valid_keyPair (kp : CryptoKeyPair) : Prop :=
  key_allows USign (privateKey kp) = true
  /\ key_allows UVerify (publicKey kp) = true
  /\ forall r data, exists s,
       subtle_sign r PROTOCOLS_v1_public_pss
                   (key_material (privateKey kp)) data = Some s
       /\ length s = 256
       /\ subtle_verify PROTOCOLS_v1_public_pss
                        (key_material (publicKey kp)) s data = Some true.

(** What [sign] hands to the engine for header [h], payload and footer. *)
Definition signed_input (h : string) (payload : bytes) (f : string)
  : bytes :=
  PAE [encode h; payload; encode f].

(** The key material in the slot of a provider. *)
Definition slot (p : V1Public.t) : option (KeyMaterial * KeyMaterial) :=
  option_map (fun kp => (key_material (publicKey kp),
                         key_material (privateKey kp)))
             (V1Public.keyPair p).

(** Two calls of [generateKey] made on a new provider, neither run yet. *)
Definition two_calls (r1 r2 : Entropy) : Overlap.World :=
  {| Overlap.provider := V1Public.new None;
     Overlap.calls := [Overlap.NotStarted r1; Overlap.NotStarted r2];
     Overlap.log := [] |}.

(** The provider lacks a key for [op]: there is none, or the one it has
    is not of the type the operation needs, or does not list the operation
    among its usages, or is of an algorithm that is not one for the
    operation. *)
Definition lacks_key (op : KeyUsage) (key : option CryptoKey) : Prop :=
  key = None
  \/ exists k,
       key = Some k
       /\ (KeyType_for op (key_type k) = false
           \/ ~ In op (key_usages k)
           \/ algorithm_for op (alg_name (key_algorithm k)) = false).


End Notions.

(** ** A small host to run the providers on

    Keys are numbers, a message is the text of a JSON object, and the
    signature of [data] under key [k] is a 256-byte tag that spells out
    [k], the length of [data] and [data] itself when that fits. *)
Module Toy.

Fixpoint bytes_eqb (a b : bytes) : bool :=
  match a, b with
  | [], [] => true
  | x :: a', y :: b' => Byte.eqb x y && bytes_eqb a' b'
  | _, _ => false
  end.

Definition tag (k : N) (data : bytes) : bytes :=
  if length data <? 254
  then byte_of_N k :: byte_of_N (N.of_nat (length data))
         :: data ++ repeat x00 (254 - length data)
  else repeat xff 256.

Definition is_object_text (s : string) : bool :=
  match s with
  | String "{" _ => true
  | _ => false
  end.

#[export] Instance host : Host := {|
  KeyMaterial := N;
  Entropy := N;
  Message := string;
  stringify := fun m => if is_object_text m then Some m else None;
  parse_claims := fun b =>
    if is_object_text (decode_text b) then Some (decode_text b) else None;
  subtle_generateKeyPair := fun r _ _ _ => Some (r, r);
  subtle_generateSecret := fun r _ _ _ => Some r;
  subtle_sign := fun _ _ k data => Some (tag k data);
  subtle_verify := fun _ k s data => Some (bytes_eqb s (tag k data))
|}.

(** The key pair the engine makes from entropy [r] for
    [generateKey(algorithm, true, ["sign", "verify"])]. *)
Definition keyPair (r : N) : CryptoKeyPair :=
  {| publicKey :=
       {| key_type := KPublic;
          key_algorithm := PROTOCOLS_v1_public_algorithm;
          key_usages := [UVerify]; key_material := r |};
     privateKey :=
       {| key_type := KPrivate;
          key_algorithm := PROTOCOLS_v1_public_algorithm;
          key_usages := [USign]; key_material := r |} |}.

(** A provider that has generated its key. *)
Definition ready : V1Public.t := V1Public.new (Some (keyPair 7)).

(** A provider that holds the public half only. *)
Definition verifier_only : V1Public.t :=
  V1Public.new
    (Some {| publicKey := publicKey (keyPair 7);
             privateKey := publicKey (keyPair 7) |}).

(** A provider of another purpose, with its own key pair. *)
Definition other_purpose : V1Public.t :=
  {| V1Public.version := "v1"; V1Public.purpose := "local";
     V1Public.keyPair := Some (keyPair 7);
     V1Public.signatureLength := 256 |}.

(** The text of the object with the one member sub, alice. *)
Definition quote : string := String "034"%char EmptyString.

Definition alice : string :=
  ("{" ++ quote ++ "sub" ++ quote ++ ":" ++ quote ++ "alice" ++ quote
   ++ "}")%string.

(** The token [ready] signs for [alice] with the footer bp. *)
Definition token_bp : string :=
  Eval vm_compute in
    match outcome (V1Public.sign 0%N alice "bp" ready) with
    | inr tok => tok
    | inl _ => EmptyString
    end.

(** A provider of another purpose that has no key. *)
Definition keyless_other_purpose : V1Public.t :=
  {| V1Public.version := "v1"; V1Public.purpose := "local";
     V1Public.keyPair := None;
     V1Public.signatureLength := 256 |}.

(** What [ready] signs for [alice] with the footer bp. *)
Definition data_bp : bytes := signed_input "v1.public" (encode alice) "bp".

(** The payload of [token_bp] under a signature of zeros. *)
Definition forged : string :=
  packer "v1.public" (encode alice) (repeat x00 256) "bp".

End Toy.

(** ** A host whose engine can reject

    As [Toy], but a call drawn with entropy 0 is rejected by the engine. *)
Module Flaky.

#[export] Instance host : Host := {|
  KeyMaterial := N;
  Entropy := N;
  Message := string;
  stringify := fun m => if Toy.is_object_text m then Some m else None;
  parse_claims := fun b =>
    if Toy.is_object_text (decode_text b) then Some (decode_text b)
    else None;
  subtle_generateKeyPair := fun r _ _ _ =>
    if (r =? 0)%N then None else Some (r, r);
  subtle_generateSecret := fun r _ _ _ =>
    if (r =? 0)%N then None else Some r;
  subtle_sign := fun r _ k data =>
    if (r =? 0)%N then None else Some (Toy.tag k data);
  subtle_verify := fun _ k s data => Some (Toy.bytes_eqb s (Toy.tag k data))
|}.

End Flaky.

(** Two calls of [generateKey] made on the provider [Toy.ready], neither
    run yet. *)
Definition two_calls_on_ready : @Overlap.World Toy.host :=
  {| Overlap.provider := Toy.ready;
     Overlap.calls := [@Overlap.NotStarted Toy.host 1%N;
                       @Overlap.NotStarted Toy.host 2%N];
     Overlap.log := [] |}.

(** A provider whose private key lists sign among its usages but is of an
    algorithm that does not sign. *)
Definition aes_signer : @V1Public.t Toy.host :=
  V1Public.new
    (Some {| publicKey := publicKey (Toy.keyPair 7);
             privateKey :=
               @Build_CryptoKey Toy.host KPrivate AES_CTR_256 [USign] 7%N |}).
(** ** Lemmas on the little-endian fields *)

Lemma to_N_byte_of_N (n : N) : Byte.to_N (byte_of_N n) = (n mod 256)%N.
Proof.
  unfold byte_of_N.
  destruct (Byte.of_N (n mod 256)) as [b|] eqn:E.
  - now apply Byte.to_of_N.
  - apply Byte.of_N_None_iff in E.
    pose proof (N.mod_upper_bound n 256). lia.
Qed.

Lemma le_bytes_length (k : nat) (n : N) : length (le_bytes k n) = k.
Proof.
  revert n; induction k as [|k IH]; intro n; simpl; [reflexivity|].
  now rewrite IH.
Qed.

Lemma le_value_le_bytes (k : nat) (n : N) :
  le_value (le_bytes k n) = (n mod 256 ^ N.of_nat k)%N.
Proof.
  revert n; induction k as [|k IH]; intro n.
  - simpl. now rewrite N.mod_1_r.
  - cbn [le_bytes le_value]. rewrite to_N_byte_of_N, IH.
    rewrite Nat2N.inj_succ, N.pow_succ_r'.
    rewrite (N.Div0.mod_mul_r n 256 (256 ^ N.of_nat k)). reflexivity.
Qed.

Lemma LE64_length (n : nat) : length (LE64 n) = 8.
Proof. apply le_bytes_length. Qed.

Lemma LE64_inj (n m : nat) :
  fits64 n -> fits64 m -> LE64 n = LE64 m -> n = m.
Proof.
  unfold fits64, LE64. intros Hn Hm E.
  apply (f_equal le_value) in E.
  rewrite !le_value_le_bytes in E.
  change (256 ^ N.of_nat 8)%N with (2 ^ 64)%N in E.
  rewrite !N.mod_small in E by assumption.
  now apply Nat2N.inj.
Qed.

(** Two appends that agree and whose heads have the same length agree
    piecewise. *)
Lemma app_eq_same_length (A : Type) (a b c d : list A) :
  length a = length c -> a ++ b = c ++ d -> a = c /\ b = d.
Proof.
  revert c; induction a as [|x a IH]; intros [|y c] L E; simpl in *;
    try discriminate.
  - now split.
  - injection E as -> E. injection L as L.
    destruct (IH _ L E) as [-> ->]. now split.
Qed.

Lemma PAE_part_app_inj (p q r s : bytes) :
  fits64 (length p) -> fits64 (length q) ->
  PAE_part p ++ r = PAE_part q ++ s -> p = q /\ r = s.
Proof.
  unfold PAE_part. intros Hp Hq E.
  rewrite <- !app_assoc in E.
  apply app_eq_same_length in E; [|now rewrite !LE64_length].
  destruct E as [EL E].
  apply LE64_inj in EL; try assumption.
  now apply app_eq_same_length in E.
Qed.

Lemma PAE_body_inj (l1 l2 : list bytes) :
  Forall (fun p => fits64 (length p)) l1 ->
  Forall (fun p => fits64 (length p)) l2 ->
  length l1 = length l2 ->
  concat (map PAE_part l1) = concat (map PAE_part l2) -> l1 = l2.
Proof.
  revert l2; induction l1 as [|p l1 IH]; intros [|q l2] F1 F2 L E;
    simpl in *; try discriminate; [reflexivity|].
  inversion F1; subst. inversion F2; subst.
  apply PAE_part_app_inj in E; try assumption.
  destruct E as [-> E]. f_equal. apply IH; auto.
Qed.

Lemma PAE_inj (l1 l2 : list bytes) :
  parts_fit l1 -> parts_fit l2 -> PAE l1 = PAE l2 -> l1 = l2.
Proof.
  unfold PAE. intros [C1 F1] [C2 F2] E.
  apply app_eq_same_length in E; [|now rewrite !LE64_length].
  destruct E as [EL E].
  apply LE64_inj in EL; try assumption.
  now apply PAE_body_inj.
Qed.

(** ** Lemmas on base64url *)

Ltac Zify.zify_post_hook ::= Z.to_euclidean_division_equations.

Lemma byte_of_to_N (x : byte) : byte_of_N (Byte.to_N x) = x.
Proof.
  unfold byte_of_N.
  rewrite N.mod_small by (pose proof (Byte.to_N_bounded x); lia).
  now rewrite Byte.of_to_N.
Qed.

Lemma sextet_roundtrip_table :
  forallb (fun n => match sextet_of_char (char_of_sextet n) with
                    | Some m => N.eqb m n
                    | None => false
                    end)
          (map N.of_nat (seq 0 64)) = true.
Proof. vm_compute. reflexivity. Qed.

Lemma sextet_of_char_of_sextet (n : N) :
  (n < 64)%N -> sextet_of_char (char_of_sextet n) = Some n.
Proof.
  intro Hn.
  pose proof sextet_roundtrip_table as T.
  rewrite forallb_forall in T.
  specialize (T n).
  destruct (sextet_of_char (char_of_sextet n)) as [m|].
  - f_equal. apply N.eqb_eq. apply T.
    apply in_map_iff. exists (N.to_nat n). split; [lia|].
    apply in_seq. lia.
  - discriminate T.
    apply in_map_iff. exists (N.to_nat n). split; [lia|].
    apply in_seq. lia.
Qed.

Lemma sextets_of_bytes_bounded (b : bytes) :
  Forall (fun n => (n < 64)%N) (sextets_of_bytes b).
Proof.
  assert (H : forall b : bytes,
             Forall (fun n => (n < 64)%N) (sextets_of_bytes b)
             /\ (forall x, Forall (fun n => (n < 64)%N)
                             (sextets_of_bytes (x :: b)))
             /\ (forall x y, Forall (fun n => (n < 64)%N)
                               (sextets_of_bytes (x :: y :: b)))).
  { clear b. induction b as [|z b (IH0 & IH1 & IH2)].
    - split; [constructor|]. split.
      + intro x. cbn [sextets_of_bytes].
        pose proof (Byte.to_N_bounded x).
        repeat (constructor; [lia|]). constructor.
      + intros x y. cbn [sextets_of_bytes].
        pose proof (Byte.to_N_bounded x). pose proof (Byte.to_N_bounded y).
        repeat (constructor; [lia|]). constructor.
    - split; [apply IH1|]. split; [intro x; apply IH2|].
      intros x y. cbn [sextets_of_bytes].
      pose proof (Byte.to_N_bounded x). pose proof (Byte.to_N_bounded y).
      pose proof (Byte.to_N_bounded z).
      repeat (constructor; [lia|]). exact IH0. }
  apply H.
Qed.

Lemma sextets_of_chars_of_sextets (l : list N) :
  Forall (fun n => (n < 64)%N) l ->
  sextets_of_chars (map char_of_sextet l) = Some l.
Proof.
  induction 1 as [|n l Hn _ IH]; [reflexivity|].
  cbn [map sextets_of_chars].
  now rewrite sextet_of_char_of_sextet, IH.
Qed.

Lemma bytes_of_sextets_of_bytes (b : bytes) :
  bytes_of_sextets (sextets_of_bytes b) = Some b.
Proof.
  assert (H : forall b : bytes,
             bytes_of_sextets (sextets_of_bytes b) = Some b
             /\ (forall x, bytes_of_sextets (sextets_of_bytes (x :: b))
                           = Some (x :: b))
             /\ (forall x y,
                    bytes_of_sextets (sextets_of_bytes (x :: y :: b))
                    = Some (x :: y :: b))).
  { clear b. induction b as [|z b (IH0 & IH1 & IH2)].
    - split; [reflexivity|]. split.
      + intro x. cbn [sextets_of_bytes bytes_of_sextets].
        pose proof (Byte.to_N_bounded x).
        replace (Byte.to_N x / 4 * 4 + Byte.to_N x mod 4 * 16 / 16)%N
          with (Byte.to_N x) by lia.
        now rewrite byte_of_to_N.
      + intros x y. cbn [sextets_of_bytes bytes_of_sextets].
        pose proof (Byte.to_N_bounded x). pose proof (Byte.to_N_bounded y).
        replace (Byte.to_N x / 4 * 4
                 + (Byte.to_N x mod 4 * 16 + Byte.to_N y / 16) / 16)%N
          with (Byte.to_N x) by lia.
        replace ((Byte.to_N x mod 4 * 16 + Byte.to_N y / 16) mod 16 * 16
                 + Byte.to_N y mod 16 * 4 / 4)%N
          with (Byte.to_N y) by lia.
        now rewrite !byte_of_to_N.
    - split; [apply IH1|]. split; [intro x; apply IH2|].
      intros x y. cbn [sextets_of_bytes bytes_of_sextets].
      rewrite IH0. cbn [option_map].
      pose proof (Byte.to_N_bounded x). pose proof (Byte.to_N_bounded y).
      pose proof (Byte.to_N_bounded z).
      replace (Byte.to_N x / 4 * 4
               + (Byte.to_N x mod 4 * 16 + Byte.to_N y / 16) / 16)%N
        with (Byte.to_N x) by lia.
      replace ((Byte.to_N x mod 4 * 16 + Byte.to_N y / 16) mod 16 * 16
               + (Byte.to_N y mod 16 * 4 + Byte.to_N z / 64) / 4)%N
        with (Byte.to_N y) by lia.
      replace ((Byte.to_N y mod 16 * 4 + Byte.to_N z / 64) mod 4 * 64
               + Byte.to_N z mod 64)%N
        with (Byte.to_N z) by lia.
      now rewrite !byte_of_to_N. }
  apply H.
Qed.

Theorem base64url_decode_encode (b : bytes) :
  base64url_decode (base64url_encode b) = Some b.
Proof.
  unfold base64url_decode, base64url_encode.
  rewrite list_ascii_of_string_of_list_ascii.
  rewrite sextets_of_chars_of_sextets by apply sextets_of_bytes_bounded.
  apply bytes_of_sextets_of_bytes.
Qed.

(** ** Lemmas on splitting and framing *)

Lemma string_app_assoc (a b c : string) :
  ((a ++ b) ++ c = a ++ (b ++ c))%string.
Proof. induction a as [|x a IH]; simpl; [reflexivity|]. now rewrite IH. Qed.

Lemma string_app_nil_r (a : string) : (a ++ EmptyString = a)%string.
Proof. induction a as [|x a IH]; simpl; [reflexivity|]. now rewrite IH. Qed.

Lemma split_dot_not_nil (s : string) : split_dot s <> [].
Proof.
  destruct s as [|c r]; simpl; [discriminate|].
  destruct (is_dot c); [discriminate|].
  destruct (split_dot r); discriminate.
Qed.

Lemma split_dot_dot_free (s : string) :
  dot_free s = true -> split_dot s = [s].
Proof.
  induction s as [|c r IH]; simpl; [reflexivity|].
  intro H. apply andb_true_iff in H as [Hc Hr].
  apply negb_true_iff in Hc. rewrite Hc, (IH Hr). reflexivity.
Qed.

Lemma split_dot_app (a b : string) :
  dot_free a = true ->
  split_dot (a ++ String "." b) = a :: split_dot b.
Proof.
  induction a as [|c r IH]; simpl; [reflexivity|].
  intro H. apply andb_true_iff in H as [Hc Hr].
  apply negb_true_iff in Hc. rewrite Hc, (IH Hr). reflexivity.
Qed.

Lemma alphabet_dot_free_table :
  forallb (fun n => negb (is_dot (char_of_sextet n)))
          (map N.of_nat (seq 0 64)) = true.
Proof. vm_compute. reflexivity. Qed.

Lemma char_of_sextet_not_dot (n : N) :
  (n < 64)%N -> is_dot (char_of_sextet n) = false.
Proof.
  intro Hn.
  pose proof alphabet_dot_free_table as T.
  rewrite forallb_forall in T.
  apply negb_true_iff, T.
  apply in_map_iff. exists (N.to_nat n). split; [lia|].
  apply in_seq. lia.
Qed.

Lemma base64url_encode_dot_free (b : bytes) :
  dot_free (base64url_encode b) = true.
Proof.
  unfold base64url_encode.
  induction (sextets_of_bytes_bounded b) as [|n l Hn _ IH];
    [reflexivity|].
  cbn [map string_of_list_ascii dot_free].
  now rewrite (char_of_sextet_not_dot Hn), IH.
Qed.


Lemma decode_text_encode (s : string) : decode_text (encode s) = s.
Proof. apply string_of_list_byte_of_string. Qed.

Lemma encode_inj (s t : string) : encode s = encode t -> s = t.
Proof.
  intro E. apply (f_equal decode_text) in E.
  now rewrite !decode_text_encode in E.
Qed.

Lemma encode_empty (s : string) : is_empty s = true -> s = EmptyString.
Proof. destruct s; [reflexivity|discriminate]. Qed.

Lemma firstn_skipn_split (A : Type) (a b : list A) :
  firstn (length (a ++ b) - length b) (a ++ b) = a
  /\ skipn (length (a ++ b) - length b) (a ++ b) = b.
Proof.
  rewrite length_app.
  replace (length a + length b - length b) with (length a) by lia.
  split.
  - rewrite firstn_app, Nat.sub_diag, firstn_all. simpl.
    apply app_nil_r.
  - rewrite skipn_app, Nat.sub_diag, skipn_all. reflexivity.
Qed.

Section Framing.

Context {host : Host}.

(** The segments of a packed token. *)
Lemma split_dot_packer (v p : string) (payload signature : bytes)
    (f : string) :
  dot_free v = true -> dot_free p = true ->
  split_dot (packer (v ++ "." ++ p) payload signature f)
  = v :: p :: base64url_encode (payload ++ signature)
      :: (if is_empty f then [] else [base64url_encode (encode f)]).
Proof.
  intros Hv Hp. unfold packer.
  rewrite !string_app_assoc. cbn [String.append].
  rewrite split_dot_app by exact Hv.
  rewrite split_dot_app by exact Hp.
  destruct (is_empty f).
  - rewrite string_app_nil_r.
    now rewrite split_dot_dot_free by apply base64url_encode_dot_free.
  - cbn [String.append].
    rewrite split_dot_app by apply base64url_encode_dot_free.
    now rewrite split_dot_dot_free by apply base64url_encode_dot_free.
Qed.

(** Parsing undoes packing, when the signature has the length the parser
    cuts off. *)
Lemma parse_packer (v p : string) (payload signature : bytes) (f : string)
    (n : nat) :
  dot_free v = true -> dot_free p = true -> length signature = n ->
  _parse_raw_token (packer (v ++ "." ++ p) payload signature f)
    {| opt_version := v; opt_purpose := p; opt_signatureLength := n |}
  = inr {| tok_version := v; tok_purpose := p; tok_payload := payload;
           tok_footer := f;
           tok_raw := {| raw_payload := payload;
                         signatureBytes := signature |} |}.
Proof.
  intros Hv Hp Hn. unfold _parse_raw_token.
  rewrite split_dot_packer by assumption.
  assert (Hh : header_matches
                 {| opt_version := v; opt_purpose := p;
                    opt_signatureLength := n |} v p = true).
  { unfold header_matches. cbn. now rewrite !String.eqb_refl. }
  assert (Hb : parse_segments
                 {| opt_version := v; opt_purpose := p;
                    opt_signatureLength := n |} v p
                 (base64url_encode (payload ++ signature))
                 (if is_empty f then None
                  else Some (base64url_encode (encode f)))
               = inr {| tok_version := v; tok_purpose := p;
                        tok_payload := payload; tok_footer := f;
                        tok_raw := {| raw_payload := payload;
                                      signatureBytes := signature |} |}).
  { unfold parse_segments, decode_segment.
    rewrite base64url_decode_encode. cbn [opt_signatureLength].
    replace (length (payload ++ signature) <? n) with false
      by (symmetry; apply Nat.ltb_ge; rewrite length_app; lia).
    subst n.
    destruct (firstn_skipn_split payload signature) as [-> ->].
    destruct (is_empty f) eqn:Ef.
    - now rewrite (encode_empty _ Ef).
    - now rewrite base64url_decode_encode, decode_text_encode. }
  destruct (is_empty f); cbn [app]; now rewrite Hh, Hb.
Qed.

End Framing.

(** ** Methods that only read the object *)

Lemma readonly_ret (S A : Type) (a : A) : readonly (@ret S A a).
Proof. intro s. reflexivity. Qed.

Lemma readonly_throw (S A : Type) (e : Error) : readonly (@throw S A e).
Proof. intro s. reflexivity. Qed.

Lemma readonly_get (S : Type) : readonly (@get S).
Proof. intro s. reflexivity. Qed.

Lemma readonly_emit (S : Type) (e : Event) : readonly (@emit S e).
Proof. intro s. reflexivity. Qed.

Lemma readonly_lift (S A : Type) (r : Result A) : readonly (@lift S A r).
Proof. intro s. reflexivity. Qed.

Lemma readonly_bind (S A B : Type) (m : Eff S A) (k : A -> Eff S B) :
  readonly m -> (forall a, readonly (k a)) -> readonly (bind m k).
Proof.
  intros Hm Hk s. unfold bind, final.
  specialize (Hm s). unfold final in Hm.
  destruct (m s) as [[[e|a] s1] ev1]; simpl in *; subst s1.
  - reflexivity.
  - specialize (Hk a s). unfold final in Hk.
    destruct (k a s) as [[r s2] ev2]. exact Hk.
Qed.

Create HintDb readonly.
#[export] Hint Resolve readonly_ret readonly_throw readonly_get
  readonly_emit readonly_lift : readonly.

Ltac readonly_step :=
  match goal with
  | |- readonly (bind _ _) => apply readonly_bind; [|intro]
  | |- readonly (match ?x with _ => _ end) => destruct x
  | |- readonly (if ?x then _ else _) => destruct x
  | |- readonly _ => solve [auto with readonly]
  end.

Section Verify.

Context {host : Host}.

Lemma readonly_call_sign (S : Type) r params key data :
  readonly (@call_sign host S r params key data).
Proof. unfold call_sign. repeat readonly_step. Qed.

Lemma readonly_call_verify (S : Type) params key signature data :
  readonly (@call_verify host S params key signature data).
Proof. unfold call_verify. repeat readonly_step. Qed.

Lemma readonly_sign r m f : readonly (V1Public.sign r m f).
Proof.
  unfold V1Public.sign.
  repeat first [apply readonly_call_sign | readonly_step].
Qed.

Lemma readonly_verify tok : readonly (V1Public.verify tok).
Proof.
  unfold V1Public.verify.
  repeat first [apply readonly_call_verify | readonly_step].
Qed.

Lemma or_empty_id (s : string) : or_empty s = s.
Proof. destruct s; reflexivity. Qed.

(** What the parser can throw. *)
Lemma parse_segments_error opts v p body footer e :
  parse_segments opts v p body footer = inl e -> e = MalformedTokenError.
Proof.
  unfold parse_segments, decode_segment.
  destruct (base64url_decode body); [|congruence].
  destruct (_ <? _); [congruence|].
  destruct footer as [seg|]; [|discriminate].
  destruct (base64url_decode seg); congruence.
Qed.

Lemma parse_segments_header opts v p body footer parsed :
  parse_segments opts v p body footer = inr parsed ->
  tok_version parsed = v /\ tok_purpose parsed = p.
Proof.
  unfold parse_segments, decode_segment.
  destruct (base64url_decode body); [|discriminate].
  destruct (_ <? _); [discriminate|].
  destruct footer as [seg|].
  - destruct (base64url_decode seg); [|discriminate].
    intro H; injection H as <-. now split.
  - intro H; injection H as <-. now split.
Qed.

Lemma header_matches_eq opts v p :
  header_matches opts v p = true ->
  v = opt_version opts /\ p = opt_purpose opts.
Proof.
  unfold header_matches. intro H.
  apply andb_true_iff in H as [Hv Hp].
  now apply String.eqb_eq in Hv, Hp.
Qed.

Lemma parse_error tok opts e :
  _parse_raw_token tok opts = inl e ->
  e = MalformedTokenError \/ e = HeaderMismatchError.
Proof.
  unfold _parse_raw_token.
  destruct (split_dot tok) as [|v [|p [|body [|foot [|x l]]]]];
    try (intro H; left; congruence).
  - destruct (header_matches opts v p).
    + intro H. left. eapply parse_segments_error, H.
    + intro H. right. congruence.
  - destruct (header_matches opts v p).
    + intro H. left. eapply parse_segments_error, H.
    + intro H. right. congruence.
Qed.

Lemma parse_header tok opts parsed :
  _parse_raw_token tok opts = inr parsed ->
  tok_version parsed = opt_version opts
  /\ tok_purpose parsed = opt_purpose opts.
Proof.
  unfold _parse_raw_token.
  destruct (split_dot tok) as [|v [|p [|body [|foot [|x l]]]]];
    try discriminate.
  - destruct (header_matches opts v p) eqn:Hh; [|discriminate].
    intro H. apply parse_segments_header in H as [-> ->].
    now apply header_matches_eq.
  - destruct (header_matches opts v p) eqn:Hh; [|discriminate].
    intro H. apply parse_segments_header in H as [-> ->].
    now apply header_matches_eq.
Qed.

(** [verify] on a token that passes the guard and the parser. *)
Lemma verify_parsed (p : V1Public.t) (tok : string) (k : CryptoKey)
    (parsed : ParsedToken) :
  verification_key p = Some k ->
  key_allows UVerify k = true ->
  _parse_raw_token tok (options p) = inr parsed ->
  V1Public.verify tok p
  = (match subtle_verify PROTOCOLS_v1_public_pss (key_material k)
             (signatureBytes (tok_raw parsed)) (signed_data p parsed) with
     | Some true =>
         match parse_claims (tok_payload parsed) with
         | Some c => inr {| message := c; footer := tok_footer parsed |}
         | None => inl ClaimsError
         end
     | Some false => inl failed_verification
     | None => inl OperationError
     end,
     p,
     [SubtleVerify (signatureBytes (tok_raw parsed))
                   (signed_data p parsed)]).
Proof.
  intros Hk Ha Hp.
  destruct (parse_header _ _ Hp) as [Hv Hq]. cbn in Hv, Hq.
  unfold V1Public.verify, bind, get, lift, call_verify, emit, ret, throw.
  unfold verification_key in Hk. rewrite Hk.
  unfold checkKeyPurpose. rewrite Ha.
  unfold options in Hp. rewrite Hp.
  unfold validateHeader. rewrite Hv, Hq, !String.eqb_refl. cbn [andb].
  unfold signed_data, header, validateClaims.
  destruct (subtle_verify _ _ _ _) as [[|]|]; try reflexivity.
  destruct (parse_claims _); reflexivity.
Qed.

(** [verify] without a usable verification key. *)
Lemma verify_no_key (p : V1Public.t) (tok : string) :
  has_key UVerify (verification_key p) = false ->
  V1Public.verify tok p = (inl KeyPurposeError, p, []).
Proof.
  intro H.
  unfold V1Public.verify, bind, get, lift.
  unfold verification_key, has_key in H. unfold checkKeyPurpose.
  destruct (option_map publicKey (V1Public.keyPair p)) as [k|];
    [rewrite H|]; reflexivity.
Qed.

(** [verify] on a token the parser refuses. *)
Lemma verify_unparsed (p : V1Public.t) (tok : string) (e : Error) :
  has_key UVerify (verification_key p) = true ->
  _parse_raw_token tok (options p) = inl e ->
  V1Public.verify tok p = (inl e, p, []).
Proof.
  intros H Hp.
  unfold V1Public.verify, bind, get, lift.
  unfold verification_key, has_key in H. unfold checkKeyPurpose.
  destruct (option_map publicKey (V1Public.keyPair p)) as [k|];
    [rewrite H|discriminate].
  unfold options in Hp. now rewrite Hp.
Qed.

End Verify.

(** ** [sign] *)

Section Sign.

Context {host : Host}.

Lemma sign_no_key (p : V1Public.t) r m f :
  has_key USign (signing_key p) = false ->
  V1Public.sign r m f p = (inl KeyPurposeError, p, []).
Proof.
  intro H.
  unfold V1Public.sign, bind, get, lift.
  unfold signing_key, has_key in H. unfold checkKeyPurpose.
  destruct (option_map privateKey (V1Public.keyPair p)) as [k|];
    [rewrite H|]; reflexivity.
Qed.

Lemma sign_signed (p : V1Public.t) r m f k ser sig :
  signing_key p = Some k ->
  key_allows USign k = true ->
  stringify m = Some ser ->
  subtle_sign r PROTOCOLS_v1_public_pss (key_material k)
              (PAE [encode (header p); encode ser; encode f]) = Some sig ->
  V1Public.sign r m f p
  = (inr (packer (header p) (encode ser) sig f), p,
     [SubtleSign (PAE [encode (header p); encode ser; encode f])]).
Proof.
  intros Hk Ha Hm Hs.
  unfold V1Public.sign, bind, get, lift, call_sign, emit, ret, throw.
  unfold signing_key in Hk. rewrite Hk.
  unfold checkKeyPurpose. rewrite Ha.
  unfold validateMessage. rewrite Hm.
  unfold validateFooter. unfold header in Hs. rewrite Hs.
  reflexivity.
Qed.

(** A token that [sign] returns is a packed one. *)
Lemma sign_returns_packed (p : V1Public.t) r m f tok :
  outcome (V1Public.sign r m f p) = inr tok ->
  exists payload sig, tok = packer (header p) payload sig f.
Proof.
  unfold V1Public.sign, bind, get, lift, call_sign, emit, ret, throw,
    outcome.
  destruct (checkKeyPurpose _ _); [discriminate|].
  destruct (validateMessage m) as [e|ser]; [discriminate|].
  unfold validateFooter.
  destruct (option_map privateKey (V1Public.keyPair p)) as [k|];
    [|discriminate].
  destruct (subtle_sign _ _ _ _) as [sig|]; [|discriminate].
  cbn. intro H; injection H as <-.
  now exists (encode ser), sig.
Qed.

(** What a token that [sign] returns was made of. *)
Lemma sign_inversion (p : V1Public.t) r m f tok :
  outcome (V1Public.sign r m f p) = inr tok ->
  exists k ser sig,
    signing_key p = Some k
    /\ stringify m = Some ser
    /\ subtle_sign r PROTOCOLS_v1_public_pss (key_material k)
                   (signed_input (header p) (encode ser) f) = Some sig
    /\ tok = packer (header p) (encode ser) sig f.
Proof.
  unfold V1Public.sign, bind, get, lift, call_sign, emit, ret, throw,
    outcome, signing_key, checkKeyPurpose, validateMessage,
    validateFooter, signed_input, header.
  destruct (option_map privateKey (V1Public.keyPair p)) as [k|];
    [|discriminate].
  destruct (key_allows USign k); [|discriminate].
  destruct (stringify m) as [ser|]; [|discriminate].
  destruct (subtle_sign _ _ _ _) as [sig|] eqn:Hs; [|discriminate].
  cbn. intro H; injection H as <-.
  exists k, ser, sig. repeat split; try reflexivity; assumption.
Qed.

End Sign.

(** ** The small host *)

Module ToyFacts.
Import Toy.

Lemma bytes_eqb_eq (a b : bytes) : bytes_eqb a b = true <-> a = b.
Proof.
  revert b; induction a as [|x a IH]; intros [|y b]; simpl;
    try (split; [discriminate|discriminate]); [tauto|].
  rewrite andb_true_iff, IH. split.
  - intros [H ->]. now apply Byte.byte_dec_bl in H as ->.
  - intro H. injection H as -> ->. split; [|reflexivity].
    now apply Byte.byte_dec_lb.
Qed.

Lemma bytes_eqb_neq (a b : bytes) : a <> b -> bytes_eqb a b = false.
Proof.
  intro H. destruct (bytes_eqb a b) eqn:E; [|reflexivity].
  now apply bytes_eqb_eq in E.
Qed.

Lemma tag_length (k : N) (data : bytes) : length (tag k data) = 256.
Proof.
  unfold tag. destruct (length data <? 254) eqn:E.
  - apply Nat.ltb_lt in E. cbn [length].
    rewrite length_app, repeat_length. lia.
  - apply repeat_length.
Qed.

Lemma toy_valid_keyPair (r : N) : valid_keyPair (keyPair r).
Proof.
  split; [reflexivity|]. split; [reflexivity|].
  intros e data. exists (tag r data). cbn.
  split; [reflexivity|]. split; [apply tag_length|].
  f_equal. now apply bytes_eqb_eq.
Qed.

Lemma toy_serializable (m : string) :
  is_object_text m = true -> serializable m.
Proof.
  intro H. exists m. cbn. rewrite H. split; [reflexivity|].
  now rewrite decode_text_encode, H.
Qed.

End ToyFacts.

(** ** Lemmas on tampered tokens *)













Lemma existsb_KeyUsage (op : KeyUsage) (l : list KeyUsage) :
  existsb (KeyUsage_eqb op) l = true <-> In op l.
Proof.
  rewrite existsb_exists. split.
  - intros (x & Hx & E). destruct op, x; try discriminate; exact Hx.
  - intro H. exists op. split; [exact H|]. now destruct op.
Qed.

Section Tampered.

Context {host : Host}.

(** The guard refuses exactly the keys a provider lacks. *)
Lemma has_key_false_iff (op : KeyUsage) (key : option CryptoKey) :
  has_key op key = false <-> lacks_key op key.
Proof.
  unfold has_key, lacks_key, key_allows. split.
  - destruct key as [k|]; [|now left].
    intro H. right. exists k. split; [reflexivity|].
    apply andb_false_iff in H as [H|H]; [|now right; right].
    apply andb_false_iff in H as [H|H]; [now left|].
    right. left. intro Hin. apply existsb_KeyUsage in Hin. congruence.
  - intros [->|(k & -> & [H|[H|H]])]; [reflexivity| | |].
    + now rewrite H.
    + destruct (existsb (KeyUsage_eqb op) (key_usages k)) eqn:E.
      * apply existsb_KeyUsage in E. contradiction.
      * now rewrite andb_false_r.
    + rewrite H. apply andb_false_r.
Qed.







End Tampered.

(** ** The properties of the specification *)

Section Properties.

Context {host : Host}.

(** C1.  Round trip: on a [V1Public] provider holding a valid v1 public
    key pair of a correct engine, for every plain serializable message [m]
    and every string footer [f], [sign] returns a token and [verify] of
    that token returns the message [m] and the footer [f]. *)
Theorem sign_verify_roundtrip (kp : CryptoKeyPair) (r : Entropy)
    (m : Message) (f : string) :
  valid_keyPair kp ->
  serializable m ->
  exists tok,
    outcome (V1Public.sign r m f (V1Public.new (Some kp))) = inr tok
    /\ outcome (V1Public.verify tok (V1Public.new (Some kp)))
       = inr {| message := m; footer := f |}.
Proof.
  intros (Hs & Hv & Hc) (ser & Hser & Hpar).
  set (p := V1Public.new (Some kp)).
  destruct (Hc r (PAE [encode (header p); encode ser; encode f]))
    as (sig & Hsig & Hlen & Hver).
  exists (packer (header p) (encode ser) sig f). split.
  - now rewrite (@sign_signed _ p r m f (privateKey kp) ser sig).
  - rewrite (@verify_parsed _ p _ (publicKey kp)
               {| tok_version := "v1"; tok_purpose := "public";
                  tok_payload := encode ser; tok_footer := f;
                  tok_raw := {| raw_payload := encode ser;
                                signatureBytes := sig |} |});
      [|reflexivity|exact Hv|now apply (parse_packer "v1" "public")].
    unfold signed_data, outcome. cbn [fst tok_raw raw_payload
      signatureBytes tok_footer tok_payload].
    rewrite or_empty_id, Hver, Hpar. reflexivity.
Qed.

(** C8.  Key purpose guard: whatever the input, [sign] fails with
    KeyPurposeError on a provider that lacks a private signing key (no key
    pair, or a key whose type, usages or algorithm do not match signing)
    and [verify] fails with KeyPurposeError on a provider that lacks a
    public verification key; the guard comes first: the provider is left
    as it was and nothing has been asked of the engine.  Neither fails
    with KeyPurposeError otherwise. *)
Theorem key_purpose_guard (p : V1Public.t) :
  (lacks_key USign (signing_key p) ->
   forall r m f, V1Public.sign r m f p = (inl KeyPurposeError, p, []))
  /\ (lacks_key UVerify (verification_key p) ->
      forall tok, V1Public.verify tok p = (inl KeyPurposeError, p, []))
  /\ (forall r m f,
        outcome (V1Public.sign r m f p) = inl KeyPurposeError ->
        lacks_key USign (signing_key p))
  /\ (forall tok,
        outcome (V1Public.verify tok p) = inl KeyPurposeError ->
        lacks_key UVerify (verification_key p)).
Proof.
  split; [|split; [|split]].
  - intros H r m f. apply sign_no_key. now apply has_key_false_iff.
  - intros H tok. apply verify_no_key. now apply has_key_false_iff.
  - intros r m f H. apply has_key_false_iff.
    destruct (has_key USign (signing_key p)) eqn:Hk; [|reflexivity].
    exfalso. revert H.
    unfold V1Public.sign, bind, get, lift, call_sign, emit, ret, throw,
      outcome, checkKeyPurpose, validateMessage, validateFooter.
    unfold has_key, signing_key in Hk.
    destruct (option_map privateKey (V1Public.keyPair p)) as [k|];
      [|discriminate].
    rewrite Hk. destruct (stringify m); [|discriminate].
    destruct (subtle_sign _ _ _ _); discriminate.
  - intros tok H. apply has_key_false_iff.
    destruct (has_key UVerify (verification_key p)) eqn:Hk; [|reflexivity].
    exfalso. revert H.
    destruct (_parse_raw_token tok (options p)) as [e|parsed] eqn:Hp.
    + rewrite (verify_unparsed _ _ Hk Hp). unfold outcome. cbn [fst].
      apply parse_error in Hp as [->| ->]; discriminate.
    + unfold has_key in Hk.
      destruct (verification_key p) as [k|] eqn:Ek; [|discriminate].
      rewrite (verify_parsed _ _ Ek Hk Hp). unfold outcome. cbn [fst].
      destruct (subtle_verify _ _ _ _) as [[|]|]; try discriminate.
      destruct (parse_claims _); discriminate.
Qed.

(** C9.  Frame: [sign] and [verify] never modify the provider: key pair,
    signature length, version and purpose are after every call, returning
    or throwing, what they were before; [generateKey] is the method that
    writes, and does so when the slot is empty and the engine answers. *)
Theorem sign_verify_leave_provider (p : V1Public.t) :
  (forall r m f, final (V1Public.sign r m f p) = p)
  /\ (forall tok, final (V1Public.verify tok p) = p)
  /\ (forall r,
        V1Public.keyPair p = None ->
        subtle_generateKeyPair r PROTOCOLS_v1_public_algorithm true
                               [USign; UVerify] <> None ->
        final (V1Public.generateKey r p) <> p).
Proof.
  split; [|split].
  - intros r m f. apply readonly_sign.
  - intro tok. apply readonly_verify.
  - intros r Hk Hg.
    unfold V1Public.generateKey, V1Public.generateKey_enter,
      V1Public.generateKey_resume, answer_generateKeyPair,
      bind, get, emit, modify, ret, throw, final.
    rewrite Hk.
    destruct (subtle_generateKeyPair _ _ _ _) as [[pub priv]|];
      [|congruence].
    cbn. intro E. apply (f_equal V1Public.keyPair) in E.
    rewrite Hk in E. discriminate.
Qed.

(** C5.  One-shot key generation: on a provider whose key slot is
    populated, at construction or by an earlier [generateKey],
    [generateKey] fails with ProviderError (the specification's
    ProviderStateError), leaves the provider as it was and asks nothing of
    the engine; it succeeds only when no key exists, and then the only
    change is the key slot. *)
Theorem generateKey_one_shot (r : Entropy) (p : V1Public.t) :
  (V1Public.keyPair p <> None ->
   V1Public.generateKey r p
   = (inl (ProviderError "This provider already has a key pair."), p, []))
  /\ (outcome (V1Public.generateKey r p) = inr tt ->
      V1Public.keyPair p = None
      /\ exists kp,
           final (V1Public.generateKey r p) = V1Public.set_keyPair kp p
           /\ forall r',
                V1Public.generateKey r' (final (V1Public.generateKey r p))
                = (inl (ProviderError
                          "This provider already has a key pair."),
                   V1Public.set_keyPair kp p, []))
  /\ (V1Public.keyPair p = None ->
      subtle_generateKeyPair r PROTOCOLS_v1_public_algorithm true
                             [USign; UVerify] <> None ->
      outcome (V1Public.generateKey r p) = inr tt).
Proof.
  unfold V1Public.generateKey, V1Public.generateKey_enter,
    V1Public.generateKey_resume, answer_generateKeyPair,
    bind, get, emit, modify, ret, throw, outcome, final.
  split; [|split].
  - destruct (V1Public.keyPair p); [reflexivity|congruence].
  - destruct (V1Public.keyPair p) eqn:Hk; [discriminate|].
    destruct (subtle_generateKeyPair _ _ _ _) as [[pub priv]|];
      [|discriminate].
    cbn. intros _. split; [reflexivity|].
    eexists. split; [reflexivity|]. intro r'. reflexivity.
  - intros Hk Hg. rewrite Hk.
    destruct (subtle_generateKeyPair _ _ _ _) as [[pub priv]|];
      [reflexivity|congruence].
Qed.

(** C10.  The local stubs: on a [V1Local] provider in any state and with
    any arguments, [encrypt] and [decrypt] raise no error, return no
    value, leave the provider as it was and ask nothing of the engine;
    each writes one line to the console. *)
Theorem local_stubs_are_silent (A : Type) (args : list A) (p : V1Local.t) :
  (outcome (V1Local.encrypt args p) = inr tt
   /\ final (V1Local.encrypt args p) = p
   /\ events (V1Local.encrypt args p) = [ConsoleLog "develop an app"])
  /\ (outcome (V1Local.decrypt args p) = inr tt
      /\ final (V1Local.decrypt args p) = p
      /\ events (V1Local.decrypt args p) = [ConsoleLog "develop an app"]).
Proof. repeat split. Qed.

End Properties.

(** C2.  PAE is injective on ordered lists of byte buffers: two distinct
    lists of parts, each count and length fitting its 8-byte field, have
    distinct encodings; in particular the two parts [a], [b] and the one
    part [a ++ b] never collide. *)
Theorem PAE_injective :
  (forall l1 l2 : list bytes,
      parts_fit l1 -> parts_fit l2 -> l1 <> l2 -> PAE l1 <> PAE l2)
  /\ (forall a b : bytes, PAE [a; b] <> PAE [a ++ b]).
Proof.
  split.
  - intros l1 l2 F1 F2 Hne E. apply Hne. now apply PAE_inj.
  - intros a b E. unfold PAE in E.
    apply app_eq_same_length in E; [|reflexivity].
    destruct E as [E _]. vm_compute in E. discriminate E.
Qed.

Section Checks.

Context {host : Host}.

Lemma fits64_small (n : nat) : n < 1000 -> fits64 n.
Proof. unfold fits64. intro H. change (2 ^ 64)%N with 18446744073709551616%N. lia. Qed.

Lemma signed_input_inj (h : string) (x x' : bytes) (f f' : string) :
  fits64 (length (encode h)) ->
  fits64 (length x) -> fits64 (length x') ->
  fits64 (length (encode f)) -> fits64 (length (encode f')) ->
  signed_input h x f = signed_input h x' f' -> x = x' /\ encode f = encode f'.
Proof.
  intros Hh Hx Hx' Hf Hf' E. unfold signed_input in E.
  apply PAE_inj in E.
  - injection E as -> ->. now split.
  - split; [apply fits64_small; simpl; lia|]. now repeat constructor.
  - split; [apply fits64_small; simpl; lia|]. now repeat constructor.
Qed.

(** [verify] on a packed token for the provider's own header. *)
Lemma verify_packed (kp : CryptoKeyPair) (payload sig : bytes)
    (f : string) :
  key_allows UVerify (publicKey kp) = true ->
  length sig = 256 ->
  V1Public.verify (packer "v1.public" payload sig f)
                  (V1Public.new (Some kp))
  = (match subtle_verify PROTOCOLS_v1_public_pss
                         (key_material (publicKey kp)) sig
                         (signed_input "v1.public" payload f) with
     | Some true =>
         match parse_claims payload with
         | Some c => inr {| message := c; footer := f |}
         | None => inl ClaimsError
         end
     | Some false => inl failed_verification
     | None => inl OperationError
     end,
     V1Public.new (Some kp),
     [SubtleVerify sig (signed_input "v1.public" payload f)]).
Proof.
  intros Hv Hlen.
  rewrite (@verify_parsed _ (V1Public.new (Some kp)) _ (publicKey kp)
             {| tok_version := "v1"; tok_purpose := "public";
                tok_payload := payload; tok_footer := f;
                tok_raw := {| raw_payload := payload;
                              signatureBytes := sig |} |});
    [|reflexivity|exact Hv|now apply (parse_packer "v1" "public")].
  unfold signed_data, signed_input.
  cbn [tok_raw raw_payload signatureBytes tok_footer tok_payload].
  now rewrite or_empty_id.
Qed.


(** C4, as the code has it.  A token that [sign] produced for v1, public,
    presented to a provider of another version or purpose that holds a
    public verification key, fails with HeaderMismatchError, whatever the
    engine would say: the provider is left as it was and nothing has been
    asked of the engine. *)
Theorem header_gate (kp : CryptoKeyPair) (r : Entropy) (m : Message)
    (f tok : string) (q : V1Public.t) :
  outcome (V1Public.sign r m f (V1Public.new (Some kp))) = inr tok ->
  has_key UVerify (verification_key q) = true ->
  (V1Public.version q, V1Public.purpose q) <> ("v1", "public")%string ->
  V1Public.verify tok q = (inl HeaderMismatchError, q, []).
Proof.
  intros Hs Hk Hne.
  apply sign_returns_packed in Hs as (payload & sig & ->).
  apply verify_unparsed; [exact Hk|].
  unfold _parse_raw_token.
  change (header (V1Public.new (Some kp)))
    with ("v1" ++ "." ++ "public")%string.
  rewrite split_dot_packer by reflexivity.
  assert (Hh : header_matches (options q) "v1" "public" = false).
  { destruct (header_matches (options q) "v1" "public") eqn:E;
      [|reflexivity].
    apply header_matches_eq in E as [Ev Ep]. cbn in Ev, Ep.
    exfalso. apply Hne. now rewrite <- Ev, <- Ep. }
  destruct (is_empty f); cbn [app]; now rewrite Hh.
Qed.


(** C6 on the code.  Two calls of [generateKey] made on a new provider
    before either is resumed both pass the test of the key slot and both
    ask the engine for a key pair; when the engine answers both, both
    calls succeed and the key pair the first one stored is overwritten by
    the second.  Made one after the other, the second call fails with
    ProviderError. *)
Theorem overlapping_generateKey_both_succeed (r1 r2 : Entropy)
    (k1 k2 : KeyMaterial * KeyMaterial) :
  subtle_generateKeyPair r1 PROTOCOLS_v1_public_algorithm true
                         [USign; UVerify] = Some k1 ->
  subtle_generateKeyPair r2 PROTOCOLS_v1_public_algorithm true
                         [USign; UVerify] = Some k2 ->
  Overlap.calls (Overlap.run [0; 1; 0; 1] (two_calls r1 r2))
  = [Overlap.Settled (inr tt); Overlap.Settled (inr tt)]
  /\ slot (Overlap.provider (Overlap.run [0; 1; 0] (two_calls r1 r2)))
     = Some k1
  /\ slot (Overlap.provider (Overlap.run [0; 1; 0; 1] (two_calls r1 r2)))
     = Some k2
  /\ Overlap.log (Overlap.run [0; 1; 0; 1] (two_calls r1 r2))
     = [SubtleGenerateKey; SubtleGenerateKey]
  /\ Overlap.calls (Overlap.run [0; 0; 1] (two_calls r1 r2))
     = [Overlap.Settled (inr tt);
        Overlap.Settled
          (inl (ProviderError "This provider already has a key pair."))].
Proof.
  intros H1 H2.
  destruct k1 as [pub1 priv1], k2 as [pub2 priv2].
  unfold Overlap.run, two_calls, Overlap.turn, slot.
  cbn [fold_left nth_error Overlap.calls Overlap.provider Overlap.log].
  unfold V1Public.generateKey_enter, V1Public.generateKey_resume,
    answer_generateKeyPair, bind, get, emit, modify, ret, throw.
  cbn [V1Public.new V1Public.keyPair Overlap.update Overlap.calls
       Overlap.provider nth_error].
  rewrite H1. cbn. rewrite H2. cbn.
  repeat split; reflexivity.
Qed.

End Checks.

(** ** Further properties of the providers *)

Section Further.

Context {host : Host}.

(** X1.  [V1Local.generateKey] is one-shot: on a provider that has a
    secret key it fails with ProviderError, changes nothing and asks
    nothing of the engine; it succeeds only from an empty slot, and then
    the slot holds a secret AES-CTR key of 256 bits for encrypt and
    decrypt, version and purpose are as before, and every later call
    fails. *)
Theorem local_generateKey_one_shot (r : Entropy) (p : V1Local.t) :
  (V1Local.secretKey p <> None ->
   V1Local.generateKey r p
   = (inl (ProviderError "This provider already has a secret key."),
      p, []))
  /\ (outcome (V1Local.generateKey r p) = inr tt ->
      V1Local.secretKey p = None
      /\ exists k,
           V1Local.secretKey (final (V1Local.generateKey r p)) = Some k
           /\ key_type k = KSecret
           /\ key_algorithm k = AES_CTR_256
           /\ key_usages k = [UEncrypt; UDecrypt]
           /\ V1Local.version (final (V1Local.generateKey r p))
              = V1Local.version p
           /\ V1Local.purpose (final (V1Local.generateKey r p))
              = V1Local.purpose p
           /\ forall r',
                outcome (V1Local.generateKey r'
                           (final (V1Local.generateKey r p)))
                = inl (ProviderError
                         "This provider already has a secret key.")).
Proof.
  unfold V1Local.generateKey, call_generateSecret,
    bind, get, emit, modify, ret, throw, outcome, final.
  split.
  - destruct (V1Local.secretKey p); [reflexivity|congruence].
  - destruct (V1Local.secretKey p) eqn:Hk; [discriminate|].
    destruct (subtle_generateSecret _ _ _ _) as [k|]; [|discriminate].
    cbn. intros _. split; [reflexivity|].
    eexists. repeat (split; [reflexivity|]). intro r'. reflexivity.
Qed.

(** X2.  A key generation the engine rejects does not use up the one
    shot: [V1Public.generateKey] on an empty slot fails with the engine's
    error after the one request, the provider is as it was, and a later
    call that the engine answers succeeds. *)
Theorem generateKey_rejected_keeps_slot (r : Entropy) (p : V1Public.t) :
  V1Public.keyPair p = None ->
  subtle_generateKeyPair r PROTOCOLS_v1_public_algorithm true
                         [USign; UVerify] = None ->
  V1Public.generateKey r p = (inl OperationError, p, [SubtleGenerateKey])
  /\ forall r',
       subtle_generateKeyPair r' PROTOCOLS_v1_public_algorithm true
                              [USign; UVerify] <> None ->
       outcome (V1Public.generateKey r'
                  (final (V1Public.generateKey r p))) = inr tt.
Proof.
  intros Hk Hr.
  unfold V1Public.generateKey, V1Public.generateKey_enter,
    V1Public.generateKey_resume, answer_generateKeyPair,
    bind, get, emit, modify, ret, throw, outcome, final.
  rewrite Hk, Hr. cbn. split; [reflexivity|].
  intros r' Hr'. rewrite Hk.
  destruct (subtle_generateKeyPair r' _ _ _) as [[pub priv]|];
    [reflexivity|congruence].
Qed.

(** Signing and verifying on a provider made with a key pair, from the
    engine's answers. *)
Lemma sign_then_verify (kp : CryptoKeyPair) r m f ser sig :
  key_allows USign (privateKey kp) = true ->
  key_allows UVerify (publicKey kp) = true ->
  stringify m = Some ser ->
  parse_claims (encode ser) = Some m ->
  subtle_sign r PROTOCOLS_v1_public_pss (key_material (privateKey kp))
              (signed_input "v1.public" (encode ser) f) = Some sig ->
  length sig = 256 ->
  subtle_verify PROTOCOLS_v1_public_pss (key_material (publicKey kp)) sig
                (signed_input "v1.public" (encode ser) f) = Some true ->
  outcome (V1Public.sign r m f (V1Public.new (Some kp)))
  = inr (packer "v1.public" (encode ser) sig f)
  /\ outcome (V1Public.verify (packer "v1.public" (encode ser) sig f)
                              (V1Public.new (Some kp)))
     = inr {| message := m; footer := f |}.
Proof.
  intros Hs Hv Hser Hpar Hsig Hlen Hver. split.
  - now rewrite (@sign_signed _ (V1Public.new (Some kp)) r m f
                   (privateKey kp) ser sig).
  - rewrite verify_packed by assumption.
    unfold outcome. cbn [fst]. now rewrite Hver, Hpar.
Qed.

(** X3.  Generate, sign, verify: on a new provider, when the engine
    answers [generateKey] with a pair whose private half signs with 256
    bytes that the public half accepts, [generateKey] succeeds and on the
    provider it leaves [sign] returns a token for every serializable
    message and footer, which [verify] turns back into that message and
    footer. *)
Theorem generate_sign_verify (r0 r : Entropy) (pub priv : KeyMaterial)
    (m : Message) (f : string) :
  subtle_generateKeyPair r0 PROTOCOLS_v1_public_algorithm true
                         [USign; UVerify] = Some (pub, priv) ->
  (forall data, exists s,
      subtle_sign r PROTOCOLS_v1_public_pss priv data = Some s
      /\ length s = 256
      /\ subtle_verify PROTOCOLS_v1_public_pss pub s data = Some true) ->
  serializable m ->
  outcome (V1Public.generateKey r0 (V1Public.new None)) = inr tt
  /\ exists tok,
       outcome (V1Public.sign r m f
                  (final (V1Public.generateKey r0 (V1Public.new None))))
       = inr tok
       /\ outcome (V1Public.verify tok
                     (final (V1Public.generateKey r0 (V1Public.new None))))
          = inr {| message := m; footer := f |}.
Proof.
  intros Hg Hc (ser & Hser & Hpar).
  destruct (Hc (signed_input "v1.public" (encode ser) f))
    as (sig & Hsig & Hlen & Hver).
  set (kp := {| publicKey :=
                  {| key_type := KPublic;
                     key_algorithm := PROTOCOLS_v1_public_algorithm;
                     key_usages := [UVerify]; key_material := pub |};
                privateKey :=
                  {| key_type := KPrivate;
                     key_algorithm := PROTOCOLS_v1_public_algorithm;
                     key_usages := [USign]; key_material := priv |} |}).
  assert (G : V1Public.generateKey r0 (V1Public.new None)
              = (inr tt, V1Public.new (Some kp), [SubtleGenerateKey])).
  { unfold V1Public.generateKey, V1Public.generateKey_enter,
      V1Public.generateKey_resume, answer_generateKeyPair,
      bind, get, emit, modify, ret, throw.
    cbn [V1Public.new V1Public.keyPair]. rewrite Hg. reflexivity. }
  rewrite G. unfold final at 1 2. cbn [fst snd]. split; [reflexivity|].
  exists (packer "v1.public" (encode ser) sig f).
  apply (@sign_then_verify kp r m f ser sig); try assumption; reflexivity.
Qed.

(** X4.  What a token from [sign] is: when [sign] returns, the provider
    holds a private key that the guard lets through, the message has a
    serialization, the engine was asked once, for the PAE of header,
    serialization and footer, and the token is the packing of header,
    serialization, the engine's signature and the footer. *)
Theorem sign_returns_signed_token (p : V1Public.t) (r : Entropy)
    (m : Message) (f tok : string) :
  outcome (V1Public.sign r m f p) = inr tok ->
  exists k ser sig,
    signing_key p = Some k
    /\ key_allows USign k = true
    /\ stringify m = Some ser
    /\ subtle_sign r PROTOCOLS_v1_public_pss (key_material k)
                   (signed_input (header p) (encode ser) f) = Some sig
    /\ tok = packer (header p) (encode ser) sig f
    /\ events (V1Public.sign r m f p)
       = [SubtleSign (signed_input (header p) (encode ser) f)].
Proof.
  unfold V1Public.sign, bind, get, lift, call_sign, emit, ret, throw,
    outcome, events, signing_key, checkKeyPurpose, validateMessage,
    validateFooter, signed_input, header.
  destruct (option_map privateKey (V1Public.keyPair p)) as [k|];
    [|discriminate].
  destruct (key_allows USign k) eqn:Ha; [|discriminate].
  destruct (stringify m) as [ser|]; [|discriminate].
  destruct (subtle_sign _ _ _ _) as [sig|] eqn:Hs; [|discriminate].
  cbn. intro H; injection H as <-.
  exists k, ser, sig. repeat split; try reflexivity; assumption.
Qed.

(** X5.  What [verify] returns it has checked: when [verify] returns, the
    provider holds a public key that the guard lets through, the token
    parsed and its first two segments are the provider's version and
    purpose, the engine was asked once and accepted the token's signature
    for the PAE of the provider's header, the token's payload and its
    footer, the message returned is the parsed payload and the footer
    returned is the token's. *)
Theorem verify_returns_accepted_token (p : V1Public.t) (tok : string)
    (v : VerifiedPasetoToken) :
  outcome (V1Public.verify tok p) = inr v ->
  exists k parsed,
    verification_key p = Some k
    /\ key_allows UVerify k = true
    /\ _parse_raw_token tok (options p) = inr parsed
    /\ tok_version parsed = V1Public.version p
    /\ tok_purpose parsed = V1Public.purpose p
    /\ subtle_verify PROTOCOLS_v1_public_pss (key_material k)
                     (signatureBytes (tok_raw parsed))
                     (signed_data p parsed) = Some true
    /\ parse_claims (tok_payload parsed) = Some (message v)
    /\ footer v = tok_footer parsed
    /\ events (V1Public.verify tok p)
       = [SubtleVerify (signatureBytes (tok_raw parsed))
                       (signed_data p parsed)].
Proof.
  destruct (has_key UVerify (verification_key p)) eqn:Hk.
  - destruct (_parse_raw_token tok (options p)) as [e|parsed] eqn:Hp.
    + rewrite (verify_unparsed _ _ Hk Hp). discriminate.
    + unfold has_key in Hk.
      destruct (verification_key p) as [k|] eqn:Ek; [|discriminate].
      rewrite (verify_parsed _ _ Ek Hk Hp). unfold outcome, events.
      cbn [fst snd].
      destruct (subtle_verify _ _ _ _) as [[|]|] eqn:Hv;
        try discriminate.
      destruct (parse_claims _) as [c|] eqn:Hc; [|discriminate].
      intro H; injection H as <-.
      destruct (parse_header _ _ Hp) as [Pv Pp].
      exists k, parsed. cbn. now repeat split.
  - rewrite (verify_no_key _ _ Hk). discriminate.
Qed.

(** X6.  The errors of [sign], in their order: KeyPurposeError when the
    guard refuses the private key, before anything else;
    InvalidMessageError when the key passes and the message has no
    serialization, before the engine is asked; otherwise only the
    engine's own rejection, after the one request. *)
Theorem sign_errors (p : V1Public.t) (r : Entropy) (m : Message)
    (f : string) (e : Error) :
  outcome (V1Public.sign r m f p) = inl e ->
  (e = KeyPurposeError
   /\ has_key USign (signing_key p) = false
   /\ events (V1Public.sign r m f p) = [])
  \/ (e = InvalidMessageError
      /\ has_key USign (signing_key p) = true
      /\ stringify m = None
      /\ events (V1Public.sign r m f p) = [])
  \/ (e = OperationError
      /\ has_key USign (signing_key p) = true
      /\ exists ser,
           stringify m = Some ser
           /\ events (V1Public.sign r m f p)
              = [SubtleSign (signed_input (header p) (encode ser) f)]).
Proof.
  unfold V1Public.sign, bind, get, lift, call_sign, emit, ret, throw,
    outcome, events, signing_key, has_key, checkKeyPurpose,
    validateMessage, validateFooter, signed_input, header.
  destruct (option_map privateKey (V1Public.keyPair p)) as [k|].
  - destruct (key_allows USign k) eqn:Ha.
    + destruct (stringify m) as [ser|].
      * destruct (subtle_sign _ _ _ _) as [sig|]; [discriminate|].
        cbn. intro H; injection H as <-. right. right.
        split; [reflexivity|]. split; [reflexivity|].
        exists ser. now split.
      * cbn. intro H; injection H as <-. right. left. now repeat split.
    + cbn. intro H; injection H as <-. left. now repeat split.
  - cbn. intro H; injection H as <-. left. now repeat split.
Qed.

(** X7.  The errors of [verify], in their order: KeyPurposeError when the
    guard refuses the public key; the parser's MalformedTokenError or
    HeaderMismatchError when the key passes, before the engine is asked;
    and after the one request to the engine its own rejection, the one
    VerificationError when it answers no, or ClaimsError when it answers
    yes and the payload does not parse. *)
Theorem verify_errors (p : V1Public.t) (tok : string) (e : Error) :
  outcome (V1Public.verify tok p) = inl e ->
  (e = KeyPurposeError
   /\ has_key UVerify (verification_key p) = false
   /\ events (V1Public.verify tok p) = [])
  \/ ((e = MalformedTokenError \/ e = HeaderMismatchError)
      /\ has_key UVerify (verification_key p) = true
      /\ _parse_raw_token tok (options p) = inl e
      /\ events (V1Public.verify tok p) = [])
  \/ (exists k parsed,
        verification_key p = Some k
        /\ _parse_raw_token tok (options p) = inr parsed
        /\ events (V1Public.verify tok p)
           = [SubtleVerify (signatureBytes (tok_raw parsed))
                           (signed_data p parsed)]
        /\ ((e = OperationError
             /\ subtle_verify PROTOCOLS_v1_public_pss (key_material k)
                              (signatureBytes (tok_raw parsed))
                              (signed_data p parsed) = None)
            \/ (e = failed_verification
                /\ subtle_verify PROTOCOLS_v1_public_pss (key_material k)
                                 (signatureBytes (tok_raw parsed))
                                 (signed_data p parsed) = Some false)
            \/ (e = ClaimsError
                /\ subtle_verify PROTOCOLS_v1_public_pss (key_material k)
                                 (signatureBytes (tok_raw parsed))
                                 (signed_data p parsed) = Some true
                /\ parse_claims (tok_payload parsed) = None))).
Proof.
  destruct (has_key UVerify (verification_key p)) eqn:Hk.
  - destruct (_parse_raw_token tok (options p)) as [e'|parsed] eqn:Hp.
    + rewrite (verify_unparsed _ _ Hk Hp). unfold outcome, events.
      cbn [fst snd]. intro H; injection H as <-. right. left.
      split; [now apply parse_error in Hp|]. now repeat split.
    + unfold has_key in Hk.
      destruct (verification_key p) as [k|] eqn:Ek; [|discriminate].
      rewrite (verify_parsed _ _ Ek Hk Hp). unfold outcome, events.
      cbn [fst snd]. intro H. right. right. exists k, parsed.
      split; [reflexivity|]. split; [reflexivity|].
      split; [reflexivity|].
      destruct (subtle_verify _ _ _ _) as [[|]|].
      * destruct (parse_claims _); [discriminate|].
        injection H as <-. right. right. now repeat split.
      * injection H as <-. right. left. now split.
      * injection H as <-. left. now split.
  - rewrite (verify_no_key _ _ Hk). unfold outcome, events. cbn [fst snd].
    intro H; injection H as <-. left. now repeat split.
Qed.

(** X8.  The shape of a token: what [sign] returns on a provider made by
    the constructor splits on dots into v1, public, a body that is the
    base64url of the message's serialization followed by the engine's
    signature and decodes to these bytes, and, only when the footer is not
    empty, the base64url of the footer, which decodes to it: three
    segments or four. *)
Theorem sign_token_segments (kp : option CryptoKeyPair) (r : Entropy)
    (m : Message) (f tok : string) :
  outcome (V1Public.sign r m f (V1Public.new kp)) = inr tok ->
  exists k ser sig,
    signing_key (V1Public.new kp) = Some k
    /\ stringify m = Some ser
    /\ subtle_sign r PROTOCOLS_v1_public_pss (key_material k)
                   (signed_input "v1.public" (encode ser) f) = Some sig
    /\ split_dot tok
       = "v1"%string :: "public"%string
           :: base64url_encode (encode ser ++ sig)
           :: (if is_empty f then [] else [base64url_encode (encode f)])
    /\ base64url_decode (base64url_encode (encode ser ++ sig))
       = Some (encode ser ++ sig)
    /\ base64url_decode (base64url_encode (encode f)) = Some (encode f)
    /\ length (split_dot tok) = if is_empty f then 3 else 4.
Proof.
  intro H. apply sign_inversion in H as (k & ser & sig & Hk & Hm & Hs & ->).
  exists k, ser, sig.
  split; [exact Hk|]. split; [exact Hm|]. split; [exact Hs|].
  change (header (V1Public.new kp)) with ("v1" ++ "." ++ "public")%string.
  rewrite split_dot_packer by reflexivity.
  split; [reflexivity|]. split; [apply base64url_decode_encode|].
  split; [apply base64url_decode_encode|].
  destruct (is_empty f); reflexivity.
Qed.

(** The engine is asked about the PAE of header, serialization and footer
    whenever the guard and the message pass, whatever it answers. *)
Lemma sign_events (p : V1Public.t) r m f d :
  events (V1Public.sign r m f p) = [SubtleSign d] ->
  exists ser,
    stringify m = Some ser
    /\ d = signed_input (header p) (encode ser) f.
Proof.
  unfold V1Public.sign, bind, get, lift, call_sign, emit, ret, throw,
    events, checkKeyPurpose, validateMessage, validateFooter,
    signed_input, header.
  destruct (option_map privateKey (V1Public.keyPair p)) as [k|];
    [|discriminate].
  destruct (key_allows USign k); [|discriminate].
  destruct (stringify m) as [ser|]; [|discriminate].
  destruct (subtle_sign _ _ _ _) as [sig|]; cbn;
    intro H; injection H as <-; now exists ser.
Qed.

(** X9.  [sign] binds payload and footer: two calls on one provider that
    ask the engine to sign the same data were given messages of the same
    serialization and the same footer, all lengths fitting their 8-byte
    fields; no bytes move between payload and footer unnoticed. *)
Theorem sign_binds_payload_and_footer (p : V1Public.t) (r r' : Entropy)
    (m m' : Message) (f f' : string) (ser ser' : string) (d : bytes) :
  stringify m = Some ser ->
  stringify m' = Some ser' ->
  fits64 (length (encode (header p))) ->
  fits64 (length (encode ser)) -> fits64 (length (encode ser')) ->
  fits64 (length (encode f)) -> fits64 (length (encode f')) ->
  events (V1Public.sign r m f p) = [SubtleSign d] ->
  events (V1Public.sign r' m' f' p) = [SubtleSign d] ->
  ser = ser' /\ f = f'.
Proof.
  intros Hm Hm' Fh Fs Fs' Ff Ff' E E'.
  apply sign_events in E as (s & Hs & ->).
  apply sign_events in E' as (s' & Hs' & E').
  rewrite Hm in Hs. injection Hs as <-.
  rewrite Hm' in Hs'. injection Hs' as <-.
  apply signed_input_inj in E'; try assumption.
  destruct E' as [E1 E2]. split; now apply encode_inj.
Qed.

(** Parsing a packed token cuts the signature off the end of the body,
    wherever the packer put the boundary. *)
Lemma parse_packer_cut (v p : string) (payload signature : bytes)
    (f : string) (n : nat) :
  dot_free v = true -> dot_free p = true ->
  n <= length (payload ++ signature) ->
  _parse_raw_token (packer (v ++ "." ++ p) payload signature f)
    {| opt_version := v; opt_purpose := p; opt_signatureLength := n |}
  = inr {| tok_version := v; tok_purpose := p;
           tok_payload :=
             firstn (length (payload ++ signature) - n)
                    (payload ++ signature);
           tok_footer := f;
           tok_raw :=
             {| raw_payload :=
                  firstn (length (payload ++ signature) - n)
                         (payload ++ signature);
                signatureBytes :=
                  skipn (length (payload ++ signature) - n)
                        (payload ++ signature) |} |}.
Proof.
  intros Hv Hp Hn. unfold _parse_raw_token.
  rewrite split_dot_packer by assumption.
  assert (Hh : header_matches
                 {| opt_version := v; opt_purpose := p;
                    opt_signatureLength := n |} v p = true).
  { unfold header_matches. cbn. now rewrite !String.eqb_refl. }
  apply Nat.ltb_ge in Hn.
  destruct (is_empty f) eqn:Ef; cbn [app]; rewrite Hh;
    unfold parse_segments, decode_segment;
    rewrite base64url_decode_encode; cbn [opt_signatureLength];
    rewrite Hn.
  - now rewrite (encode_empty _ Ef).
  - now rewrite base64url_decode_encode, decode_text_encode.
Qed.

(** X11.  [verify] takes the last 256 bytes of the body for the
    signature, whatever was signed: on a provider made by the constructor
    with a key for verifying, for a packed token whose body has at least
    256 bytes, the one request to the engine is about the last 256 bytes
    of the body as signature and the bytes before them as payload.  A
    signature of another length is thus not the one that is checked. *)
Theorem verify_cuts_last_256_bytes (kp : CryptoKeyPair)
    (payload sig : bytes) (f : string) :
  key_allows UVerify (publicKey kp) = true ->
  256 <= length (payload ++ sig) ->
  events (V1Public.verify (packer "v1.public" payload sig f)
                          (V1Public.new (Some kp)))
  = [SubtleVerify
       (skipn (length (payload ++ sig) - 256) (payload ++ sig))
       (signed_input "v1.public"
          (firstn (length (payload ++ sig) - 256) (payload ++ sig)) f)]
  /\ length (skipn (length (payload ++ sig) - 256) (payload ++ sig)) = 256.
Proof.
  intros Hv Hn. split.
  - pose proof (@verify_parsed _ (V1Public.new (Some kp)) _ (publicKey kp)
                  _ eq_refl Hv
                  (parse_packer_cut "v1" "public" payload sig f
                     eq_refl eq_refl Hn)) as E.
    cbn [String.append] in E. rewrite E.
    unfold events, signed_data, signed_input.
    cbn [snd tok_raw raw_payload signatureBytes tok_footer].
    now rewrite or_empty_id.
  - rewrite length_skipn. lia.
Qed.

(** One turn of the event loop keeps the provider's header and signature
    length, the number of calls, and a populated key slot. *)
Lemma turn_invariants (i : nat) (w : Overlap.World) :
  V1Public.version (Overlap.provider (Overlap.turn i w))
  = V1Public.version (Overlap.provider w)
  /\ V1Public.purpose (Overlap.provider (Overlap.turn i w))
     = V1Public.purpose (Overlap.provider w)
  /\ V1Public.signatureLength (Overlap.provider (Overlap.turn i w))
     = V1Public.signatureLength (Overlap.provider w)
  /\ (V1Public.keyPair (Overlap.provider w) <> None ->
      V1Public.keyPair (Overlap.provider (Overlap.turn i w)) <> None).
Proof.
  unfold Overlap.turn.
  destruct (nth_error (Overlap.calls w) i) as [[r|r|res]|].
  - unfold V1Public.generateKey_enter, bind, get, emit, throw.
    destruct (V1Public.keyPair (Overlap.provider w)) eqn:E; cbn;
      rewrite ?E; repeat split; auto.
  - unfold V1Public.generateKey_resume, answer_generateKeyPair,
      bind, modify, ret, throw.
    destruct (subtle_generateKeyPair _ _ _ _) as [[pub priv]|]; cbn;
      repeat split; auto; discriminate.
  - repeat split; auto.
  - repeat split; auto.
Qed.

(** X10.  Whatever the interleaving of [generateKey] calls on a provider,
    its version, purpose and signature length stay what they were, and a
    key slot that is populated is never emptied (its content may be
    replaced). *)
Theorem overlapping_generateKey_invariants (schedule : list nat)
    (w : Overlap.World) :
  V1Public.version (Overlap.provider (Overlap.run schedule w))
  = V1Public.version (Overlap.provider w)
  /\ V1Public.purpose (Overlap.provider (Overlap.run schedule w))
     = V1Public.purpose (Overlap.provider w)
  /\ V1Public.signatureLength (Overlap.provider (Overlap.run schedule w))
     = V1Public.signatureLength (Overlap.provider w)
  /\ (V1Public.keyPair (Overlap.provider w) <> None ->
      V1Public.keyPair (Overlap.provider (Overlap.run schedule w))
      <> None).
Proof.
  unfold Overlap.run. revert w.
  induction schedule as [|i schedule IH]; intro w; cbn [fold_left].
  - repeat split; auto.
  - destruct (turn_invariants i w) as (Hv & Hp & Hl & Hk).
    destruct (IH (Overlap.turn i w)) as (Hv' & Hp' & Hl' & Hk').
    rewrite Hv', Hp', Hl'. repeat split; auto.
Qed.

End Further.

(** ** The properties on the small host *)

#[local] Existing Instance Toy.host.

Lemma sign_verify_roundtrip_witness :
  valid_keyPair (Toy.keyPair 7)
  /\ serializable Toy.alice
  /\ exists tok,
       outcome (V1Public.sign 0%N Toy.alice "footer1"
                              (V1Public.new (Some (Toy.keyPair 7))))
       = inr tok
       /\ outcome (V1Public.verify tok
                                   (V1Public.new (Some (Toy.keyPair 7))))
          = inr {| message := Toy.alice; footer := "footer1" |}.
Proof.
  split; [apply ToyFacts.toy_valid_keyPair|].
  split; [apply ToyFacts.toy_serializable; reflexivity|].
  apply (@sign_verify_roundtrip Toy.host (Toy.keyPair 7) 0%N Toy.alice
           "footer1").
  - apply ToyFacts.toy_valid_keyPair.
  - apply ToyFacts.toy_serializable. reflexivity.
Defined.

Lemma PAE_injective_witness :
  parts_fit [[x01]; [x02]]
  /\ parts_fit [[x01; x02]]
  /\ [[x01]; [x02]] <> [[x01; x02]]
  /\ PAE [[x01]; [x02]] <> PAE [[x01; x02]].
Proof.
  assert (F1 : parts_fit [[x01]; [x02]])
    by (split; [reflexivity|repeat constructor]).
  assert (F2 : parts_fit [[x01; x02]])
    by (split; [reflexivity|repeat constructor]).
  assert (N : [[x01]; [x02]] <> [[x01; x02]]) by discriminate.
  split; [exact F1|]. split; [exact F2|]. split; [exact N|].
  exact (proj1 PAE_injective _ _ F1 F2 N).
Defined.

Lemma key_purpose_guard_witness :
  (lacks_key USign (signing_key Toy.verifier_only)
   /\ V1Public.sign 0%N Toy.alice "footer1" Toy.verifier_only
      = (inl KeyPurposeError, Toy.verifier_only, []))
  /\ (lacks_key USign (signing_key aes_signer)
      /\ V1Public.sign 0%N Toy.alice "footer1" aes_signer
         = (inl KeyPurposeError, aes_signer, []))
  /\ (lacks_key UVerify (verification_key (V1Public.new None))
      /\ V1Public.verify Toy.token_bp (V1Public.new None)
         = (inl KeyPurposeError, V1Public.new None, []))
  /\ (outcome (V1Public.sign 0%N Toy.alice "footer1" aes_signer)
      = inl KeyPurposeError
      /\ lacks_key USign (signing_key aes_signer))
  /\ (outcome (V1Public.verify Toy.token_bp (V1Public.new None))
      = inl KeyPurposeError
      /\ lacks_key UVerify (verification_key (V1Public.new None))).
Proof.
  assert (L1 : lacks_key USign (signing_key Toy.verifier_only)).
  { right. exists (publicKey (Toy.keyPair 7)).
    split; [reflexivity|]. left. reflexivity. }
  assert (L2 : lacks_key USign (signing_key aes_signer)).
  { right. eexists. split; [reflexivity|]. right. right. reflexivity. }
  assert (L3 : lacks_key UVerify (verification_key (V1Public.new None)))
    by (left; reflexivity).
  split; [split; [exact L1|]|split; [split; [exact L2|]|split;
    [split; [exact L3|]|split; [split; [reflexivity|]|
                                split; [reflexivity|]]]]].
  - exact (proj1 (@key_purpose_guard Toy.host Toy.verifier_only)
             L1 0%N Toy.alice "footer1"%string).
  - exact (proj1 (@key_purpose_guard Toy.host aes_signer)
             L2 0%N Toy.alice "footer1"%string).
  - exact (proj1 (proj2 (@key_purpose_guard Toy.host (V1Public.new None)))
             L3 Toy.token_bp).
  - exact (proj1 (proj2 (proj2 (@key_purpose_guard Toy.host aes_signer)))
             0%N Toy.alice "footer1"%string eq_refl).
  - exact (proj2 (proj2 (proj2 (@key_purpose_guard Toy.host
                                  (V1Public.new None))))
             Toy.token_bp eq_refl).
Defined.

Lemma sign_verify_leave_provider_witness :
  V1Public.keyPair (@V1Public.new Toy.host None) = None
  /\ subtle_generateKeyPair 5%N PROTOCOLS_v1_public_algorithm true
                            [USign; UVerify] <> None
  /\ final (V1Public.generateKey 5%N (@V1Public.new Toy.host None))
     <> V1Public.new None
  /\ final (V1Public.sign 0%N Toy.alice "footer1" Toy.ready) = Toy.ready
  /\ final (V1Public.verify Toy.token_bp Toy.ready) = Toy.ready.
Proof.
  assert (G : @subtle_generateKeyPair Toy.host 5%N
                PROTOCOLS_v1_public_algorithm true [USign; UVerify]
              <> None) by discriminate.
  split; [reflexivity|]. split; [exact G|]. split.
  - exact (proj2 (proj2 (@sign_verify_leave_provider Toy.host
                           (V1Public.new None))) 5%N eq_refl G).
  - split.
    + exact (proj1 (@sign_verify_leave_provider Toy.host Toy.ready)
               0%N Toy.alice "footer1"%string).
    + exact (proj1 (proj2 (@sign_verify_leave_provider Toy.host Toy.ready))
               Toy.token_bp).
Defined.

Lemma generateKey_one_shot_witness :
  V1Public.keyPair Toy.ready <> None
  /\ V1Public.generateKey 5%N Toy.ready
     = (inl (ProviderError "This provider already has a key pair."),
        Toy.ready, [])
  /\ outcome (V1Public.generateKey 5%N (@V1Public.new Toy.host None))
     = inr tt
  /\ V1Public.keyPair (@V1Public.new Toy.host None) = None
  /\ exists kp,
       final (V1Public.generateKey 5%N (@V1Public.new Toy.host None))
       = V1Public.set_keyPair kp (V1Public.new None)
       /\ forall r',
            V1Public.generateKey r'
              (final (V1Public.generateKey 5%N
                        (@V1Public.new Toy.host None)))
            = (inl (ProviderError "This provider already has a key pair."),
               V1Public.set_keyPair kp (V1Public.new None), []).
Proof.
  assert (K : V1Public.keyPair Toy.ready <> None) by discriminate.
  assert (G : @subtle_generateKeyPair Toy.host 5%N
                PROTOCOLS_v1_public_algorithm true [USign; UVerify]
              <> None) by discriminate.
  split; [exact K|]. split.
  - exact (proj1 (@generateKey_one_shot Toy.host 5%N Toy.ready) K).
  - pose proof (proj2 (proj2 (@generateKey_one_shot Toy.host 5%N
                                (V1Public.new None))) eq_refl G) as S.
    split; [exact S|].
    exact (proj1 (proj2 (@generateKey_one_shot Toy.host 5%N
                           (V1Public.new None))) S).
Defined.

Lemma overlapping_generateKey_both_succeed_witness :
  Overlap.calls (Overlap.run [0; 1; 0; 1] (@two_calls Toy.host 1%N 2%N))
  = [Overlap.Settled (inr tt); Overlap.Settled (inr tt)]
  /\ slot (Overlap.provider
             (Overlap.run [0; 1; 0] (@two_calls Toy.host 1%N 2%N)))
     = Some (1%N, 1%N)
  /\ slot (Overlap.provider
             (Overlap.run [0; 1; 0; 1] (@two_calls Toy.host 1%N 2%N)))
     = Some (2%N, 2%N)
  /\ Overlap.log (Overlap.run [0; 1; 0; 1] (@two_calls Toy.host 1%N 2%N))
     = [SubtleGenerateKey; SubtleGenerateKey]
  /\ Overlap.calls (Overlap.run [0; 0; 1] (@two_calls Toy.host 1%N 2%N))
     = [Overlap.Settled (inr tt);
        Overlap.Settled
          (inl (ProviderError "This provider already has a key pair."))].
Proof.
  exact (@overlapping_generateKey_both_succeed Toy.host 1%N 2%N
           (1%N, 1%N) (2%N, 2%N) eq_refl eq_refl).
Defined.

Lemma header_gate_witness :
  outcome (V1Public.sign 0%N Toy.alice "bp"
                         (V1Public.new (Some (Toy.keyPair 7))))
  = inr Toy.token_bp
  /\ has_key UVerify (verification_key Toy.other_purpose) = true
  /\ (V1Public.version Toy.other_purpose,
      V1Public.purpose Toy.other_purpose) <> ("v1", "public")%string
  /\ V1Public.verify Toy.token_bp Toy.other_purpose
     = (inl HeaderMismatchError, Toy.other_purpose, []).
Proof.
  assert (S : outcome (V1Public.sign 0%N Toy.alice "bp"
                         (V1Public.new (Some (Toy.keyPair 7))))
              = inr Toy.token_bp) by (vm_compute; reflexivity).
  assert (N : (V1Public.version Toy.other_purpose,
               V1Public.purpose Toy.other_purpose)
              <> ("v1", "public")%string) by discriminate.
  split; [exact S|]. split; [reflexivity|]. split; [exact N|].
  exact (@header_gate Toy.host (Toy.keyPair 7) 0%N Toy.alice "bp"%string
           Toy.token_bp Toy.other_purpose S eq_refl N).
Defined.



(** ** Where the code does otherwise *)


(** C4 as stated fails: presented to a provider of another purpose that
    has no key, a token signed for v1, public fails with KeyPurposeError,
    not with HeaderMismatchError. *)
Lemma header_gate_counterexample :
  outcome (V1Public.sign 0%N Toy.alice "bp"
                         (V1Public.new (Some (Toy.keyPair 7))))
  = inr Toy.token_bp
  /\ V1Public.purpose Toy.keyless_other_purpose <> "public"%string
  /\ V1Public.verify Toy.token_bp Toy.keyless_other_purpose
     = (inl KeyPurposeError, Toy.keyless_other_purpose, [])
  /\ outcome (V1Public.verify Toy.token_bp Toy.keyless_other_purpose)
     <> inl HeaderMismatchError.
Proof.
  split; [vm_compute; reflexivity|].
  split; [discriminate|].
  split; [vm_compute; reflexivity|].
  vm_compute. discriminate.
Qed.


(** The token [ready] signs for [alice] with the footer footer1, without
    its last character: the footer segment still decodes, to other bytes
    than were signed, and [verify] fails at the signature check. *)
Lemma truncated_token_fails_verification :
  exists tok,
    outcome (V1Public.sign 0%N Toy.alice "footer1" Toy.ready) = inr tok
    /\ nth_error (split_dot tok) 3 = Some "Zm9vdGVyMQ"%string
    /\ nth_error (split_dot (without_last tok)) 3 = Some "Zm9vdGVyM"%string
    /\ outcome (V1Public.verify (without_last tok) Toy.ready)
       = inl failed_verification.
Proof.
  eexists. split; [vm_compute; reflexivity|].
  split; [vm_compute; reflexivity|].
  split; [vm_compute; reflexivity|].
  vm_compute. reflexivity.
Qed.

(** ** The further properties on the small hosts *)

Lemma local_generateKey_one_shot_witness :
  (V1Local.secretKey
     (V1Local.new
        (Some {| key_type := KSecret; key_algorithm := AES_CTR_256;
                 key_usages := [UEncrypt; UDecrypt];
                 key_material := 3%N |})) <> None
   /\ V1Local.generateKey 5%N
        (V1Local.new
           (Some {| key_type := KSecret; key_algorithm := AES_CTR_256;
                    key_usages := [UEncrypt; UDecrypt];
                    key_material := 3%N |}))
      = (inl (ProviderError "This provider already has a secret key."),
         V1Local.new
           (Some {| key_type := KSecret; key_algorithm := AES_CTR_256;
                    key_usages := [UEncrypt; UDecrypt];
                    key_material := 3%N |}), []))
  /\ outcome (V1Local.generateKey 5%N (V1Local.new None)) = inr tt
  /\ V1Local.secretKey (@V1Local.new Toy.host None) = None
  /\ exists k,
       V1Local.secretKey
         (final (V1Local.generateKey 5%N (V1Local.new None))) = Some k
       /\ key_type k = KSecret
       /\ key_algorithm k = AES_CTR_256
       /\ key_usages k = [UEncrypt; UDecrypt]
       /\ V1Local.version
            (final (V1Local.generateKey 5%N (V1Local.new None)))
          = V1Local.version (V1Local.new None)
       /\ V1Local.purpose
            (final (V1Local.generateKey 5%N (V1Local.new None)))
          = V1Local.purpose (V1Local.new None)
       /\ forall r',
            outcome (V1Local.generateKey r'
                       (final (V1Local.generateKey 5%N (V1Local.new None))))
            = inl (ProviderError "This provider already has a secret key.").
Proof.
  split.
  - assert (K : V1Local.secretKey
                  (V1Local.new
                     (Some {| key_type := KSecret;
                              key_algorithm := AES_CTR_256;
                              key_usages := [UEncrypt; UDecrypt];
                              key_material := 3%N |})) <> None)
      by discriminate.
    split; [exact K|].
    exact (proj1 (@local_generateKey_one_shot Toy.host 5%N _) K).
  - split; [reflexivity|].
    exact (proj2 (@local_generateKey_one_shot Toy.host 5%N
                    (V1Local.new None)) eq_refl).
Defined.

Lemma generateKey_rejected_keeps_slot_witness :
  V1Public.keyPair (@V1Public.new Flaky.host None) = None
  /\ @subtle_generateKeyPair Flaky.host 0%N PROTOCOLS_v1_public_algorithm
       true [USign; UVerify] = None
  /\ @V1Public.generateKey Flaky.host 0%N (V1Public.new None)
     = (inl OperationError, V1Public.new None, [SubtleGenerateKey])
  /\ forall r',
       @subtle_generateKeyPair Flaky.host r' PROTOCOLS_v1_public_algorithm
         true [USign; UVerify] <> None ->
       outcome (@V1Public.generateKey Flaky.host r'
                  (final (@V1Public.generateKey Flaky.host 0%N
                            (V1Public.new None)))) = inr tt.
Proof.
  split; [reflexivity|]. split; [reflexivity|].
  exact (@generateKey_rejected_keeps_slot Flaky.host 0%N
           (V1Public.new None) eq_refl eq_refl).
Defined.

Lemma generate_sign_verify_witness :
  subtle_generateKeyPair 7%N PROTOCOLS_v1_public_algorithm true
                         [USign; UVerify] = Some (7%N, 7%N)
  /\ serializable Toy.alice
  /\ outcome (V1Public.generateKey 7%N (V1Public.new None)) = inr tt
  /\ exists tok,
       outcome (V1Public.sign 0%N Toy.alice "footer1"
                  (final (V1Public.generateKey 7%N (V1Public.new None))))
       = inr tok
       /\ outcome (V1Public.verify tok
                     (final (V1Public.generateKey 7%N (V1Public.new None))))
          = inr {| message := Toy.alice; footer := "footer1" |}.
Proof.
  assert (S : serializable Toy.alice)
    by (apply ToyFacts.toy_serializable; reflexivity).
  split; [reflexivity|]. split; [exact S|].
  exact (@generate_sign_verify Toy.host 7%N 0%N 7%N 7%N Toy.alice
           "footer1" eq_refl
           (proj2 (proj2 (ToyFacts.toy_valid_keyPair 7)) 0%N) S).
Defined.

Lemma sign_returns_signed_token_witness :
  outcome (V1Public.sign 0%N Toy.alice "bp" Toy.ready) = inr Toy.token_bp
  /\ exists k ser sig,
       signing_key Toy.ready = Some k
       /\ key_allows USign k = true
       /\ stringify Toy.alice = Some ser
       /\ subtle_sign 0%N PROTOCOLS_v1_public_pss (key_material k)
                      (signed_input (header Toy.ready) (encode ser) "bp")
          = Some sig
       /\ Toy.token_bp = packer (header Toy.ready) (encode ser) sig "bp"
       /\ events (V1Public.sign 0%N Toy.alice "bp" Toy.ready)
          = [SubtleSign (signed_input (header Toy.ready) (encode ser)
                                      "bp")].
Proof.
  assert (S : outcome (V1Public.sign 0%N Toy.alice "bp" Toy.ready)
              = inr Toy.token_bp) by (vm_compute; reflexivity).
  split; [exact S|].
  exact (@sign_returns_signed_token Toy.host Toy.ready 0%N Toy.alice
           "bp" Toy.token_bp S).
Defined.

Lemma verify_returns_accepted_token_witness :
  outcome (V1Public.verify Toy.token_bp Toy.ready)
  = inr {| message := Toy.alice; footer := "bp" |}
  /\ exists k parsed,
       verification_key Toy.ready = Some k
       /\ key_allows UVerify k = true
       /\ _parse_raw_token Toy.token_bp (options Toy.ready) = inr parsed
       /\ tok_version parsed = V1Public.version Toy.ready
       /\ tok_purpose parsed = V1Public.purpose Toy.ready
       /\ subtle_verify PROTOCOLS_v1_public_pss (key_material k)
                        (signatureBytes (tok_raw parsed))
                        (signed_data Toy.ready parsed) = Some true
       /\ parse_claims (tok_payload parsed)
          = Some (message {| message := Toy.alice; footer := "bp" |})
       /\ footer {| message := Toy.alice; footer := "bp" |}
          = tok_footer parsed
       /\ events (V1Public.verify Toy.token_bp Toy.ready)
          = [SubtleVerify (signatureBytes (tok_raw parsed))
                          (signed_data Toy.ready parsed)].
Proof.
  assert (V : outcome (V1Public.verify Toy.token_bp Toy.ready)
              = inr {| message := Toy.alice; footer := "bp" |})
    by (vm_compute; reflexivity).
  split; [exact V|].
  exact (@verify_returns_accepted_token Toy.host Toy.ready Toy.token_bp
           _ V).
Defined.

Lemma sign_errors_witness :
  outcome (V1Public.sign 0%N "[]"%string "bp" Toy.ready)
  = inl InvalidMessageError
  /\ ((InvalidMessageError = KeyPurposeError
       /\ has_key USign (signing_key Toy.ready) = false
       /\ events (V1Public.sign 0%N "[]"%string "bp" Toy.ready) = [])
      \/ (InvalidMessageError = InvalidMessageError
          /\ has_key USign (signing_key Toy.ready) = true
          /\ stringify "[]"%string = None
          /\ events (V1Public.sign 0%N "[]"%string "bp" Toy.ready) = [])
      \/ (InvalidMessageError = OperationError
          /\ has_key USign (signing_key Toy.ready) = true
          /\ exists ser,
               stringify "[]"%string = Some ser
               /\ events (V1Public.sign 0%N "[]"%string "bp" Toy.ready)
                  = [SubtleSign (signed_input (header Toy.ready)
                                              (encode ser) "bp")])).
Proof.
  split; [reflexivity|].
  exact (@sign_errors Toy.host Toy.ready 0%N "[]"%string "bp"
           InvalidMessageError eq_refl).
Defined.

Lemma verify_errors_witness :
  outcome (V1Public.verify Toy.forged Toy.ready) = inl failed_verification
  /\ ((failed_verification = KeyPurposeError
       /\ has_key UVerify (verification_key Toy.ready) = false
       /\ events (V1Public.verify Toy.forged Toy.ready) = [])
      \/ ((failed_verification = MalformedTokenError
           \/ failed_verification = HeaderMismatchError)
          /\ has_key UVerify (verification_key Toy.ready) = true
          /\ _parse_raw_token Toy.forged (options Toy.ready)
             = inl failed_verification
          /\ events (V1Public.verify Toy.forged Toy.ready) = [])
      \/ (exists k parsed,
            verification_key Toy.ready = Some k
            /\ _parse_raw_token Toy.forged (options Toy.ready) = inr parsed
            /\ events (V1Public.verify Toy.forged Toy.ready)
               = [SubtleVerify (signatureBytes (tok_raw parsed))
                               (signed_data Toy.ready parsed)]
            /\ ((failed_verification = OperationError
                 /\ subtle_verify PROTOCOLS_v1_public_pss (key_material k)
                                  (signatureBytes (tok_raw parsed))
                                  (signed_data Toy.ready parsed) = None)
                \/ (failed_verification = failed_verification
                    /\ subtle_verify PROTOCOLS_v1_public_pss
                                     (key_material k)
                                     (signatureBytes (tok_raw parsed))
                                     (signed_data Toy.ready parsed)
                       = Some false)
                \/ (failed_verification = ClaimsError
                    /\ subtle_verify PROTOCOLS_v1_public_pss
                                     (key_material k)
                                     (signatureBytes (tok_raw parsed))
                                     (signed_data Toy.ready parsed)
                       = Some true
                    /\ parse_claims (tok_payload parsed) = None)))).
Proof.
  assert (V : outcome (V1Public.verify Toy.forged Toy.ready)
              = inl failed_verification) by (vm_compute; reflexivity).
  split; [exact V|].
  exact (@verify_errors Toy.host Toy.ready Toy.forged failed_verification
           V).
Defined.

Lemma sign_token_segments_witness :
  outcome (V1Public.sign 0%N Toy.alice "bp"
                         (V1Public.new (Some (Toy.keyPair 7))))
  = inr Toy.token_bp
  /\ exists k ser sig,
       signing_key (V1Public.new (Some (Toy.keyPair 7))) = Some k
       /\ stringify Toy.alice = Some ser
       /\ subtle_sign 0%N PROTOCOLS_v1_public_pss (key_material k)
                      (signed_input "v1.public" (encode ser) "bp")
          = Some sig
       /\ split_dot Toy.token_bp
          = "v1"%string :: "public"%string
              :: base64url_encode (encode ser ++ sig)
              :: (if is_empty "bp" then []
                  else [base64url_encode (encode "bp")])
       /\ base64url_decode (base64url_encode (encode ser ++ sig))
          = Some (encode ser ++ sig)
       /\ base64url_decode (base64url_encode (encode "bp"))
          = Some (encode "bp")
       /\ length (split_dot Toy.token_bp) = if is_empty "bp" then 3 else 4.
Proof.
  assert (S : outcome (V1Public.sign 0%N Toy.alice "bp"
                         (V1Public.new (Some (Toy.keyPair 7))))
              = inr Toy.token_bp) by (vm_compute; reflexivity).
  split; [exact S|].
  exact (@sign_token_segments Toy.host (Some (Toy.keyPair 7)) 0%N
           Toy.alice "bp" Toy.token_bp S).
Defined.

Lemma sign_binds_payload_and_footer_witness :
  stringify Toy.alice = Some Toy.alice
  /\ fits64 (length (encode (header Toy.ready)))
  /\ fits64 (length (encode Toy.alice))
  /\ fits64 (length (encode "bp"))
  /\ events (V1Public.sign 0%N Toy.alice "bp" Toy.ready)
     = [SubtleSign Toy.data_bp]
  /\ events (V1Public.sign 1%N Toy.alice "bp" Toy.ready)
     = [SubtleSign Toy.data_bp]
  /\ Toy.alice = Toy.alice /\ "bp"%string = "bp"%string.
Proof.
  assert (E0 : events (V1Public.sign 0%N Toy.alice "bp" Toy.ready)
               = [SubtleSign Toy.data_bp]) by (vm_compute; reflexivity).
  assert (E1 : events (V1Public.sign 1%N Toy.alice "bp" Toy.ready)
               = [SubtleSign Toy.data_bp]) by (vm_compute; reflexivity).
  assert (Fh : fits64 (length (encode (header Toy.ready))))
    by reflexivity.
  assert (Fa : fits64 (length (encode Toy.alice))) by reflexivity.
  assert (Ff : fits64 (length (encode "bp"))) by reflexivity.
  split; [reflexivity|]. split; [exact Fh|]. split; [exact Fa|].
  split; [exact Ff|]. split; [exact E0|]. split; [exact E1|].
  exact (@sign_binds_payload_and_footer Toy.host Toy.ready 0%N 1%N
           Toy.alice Toy.alice "bp" "bp" Toy.alice Toy.alice Toy.data_bp
           eq_refl eq_refl Fh Fa Fa Ff Ff E0 E1).
Defined.

Lemma verify_cuts_last_256_bytes_witness :
  key_allows UVerify (publicKey (Toy.keyPair 7)) = true
  /\ 256 <= length (encode Toy.alice ++ repeat x00 300)
  /\ events (V1Public.verify
               (packer "v1.public" (encode Toy.alice) (repeat x00 300) "bp")
               (V1Public.new (Some (Toy.keyPair 7))))
     = [SubtleVerify
          (skipn (length (encode Toy.alice ++ repeat x00 300) - 256)
                 (encode Toy.alice ++ repeat x00 300))
          (signed_input "v1.public"
             (firstn (length (encode Toy.alice ++ repeat x00 300) - 256)
                     (encode Toy.alice ++ repeat x00 300)) "bp")]
  /\ length (skipn (length (encode Toy.alice ++ repeat x00 300) - 256)
                   (encode Toy.alice ++ repeat x00 300)) = 256.
Proof.
  assert (L : 256 <= length (encode Toy.alice ++ repeat x00 300))
    by (vm_compute; lia).
  split; [reflexivity|]. split; [exact L|].
  exact (@verify_cuts_last_256_bytes Toy.host (Toy.keyPair 7)
           (encode Toy.alice) (repeat x00 300) "bp" eq_refl L).
Defined.

Lemma overlapping_generateKey_invariants_witness :
  V1Public.keyPair Toy.ready <> None
  /\ V1Public.version
       (Overlap.provider (Overlap.run [0; 1; 0; 1] two_calls_on_ready))
     = V1Public.version Toy.ready
  /\ V1Public.purpose
       (Overlap.provider (Overlap.run [0; 1; 0; 1] two_calls_on_ready))
     = V1Public.purpose Toy.ready
  /\ V1Public.signatureLength
       (Overlap.provider (Overlap.run [0; 1; 0; 1] two_calls_on_ready))
     = V1Public.signatureLength Toy.ready
  /\ V1Public.keyPair
       (Overlap.provider (Overlap.run [0; 1; 0; 1] two_calls_on_ready))
     <> None.
Proof.
  assert (K : V1Public.keyPair Toy.ready <> None) by discriminate.
  split; [exact K|].
  destruct (@overlapping_generateKey_invariants Toy.host [0; 1; 0; 1]
              two_calls_on_ready) as (Hv & Hp & Hl & Hk).
  split; [exact Hv|]. split; [exact Hp|]. split; [exact Hl|].
  exact (Hk K).
Defined.
